(** * Decodable word generator: the decoder and its pattern classifiers

    A shallow embedding of [word_decoder.py].  The [WordDecoder] object is a
    record, its methods are functions that pass the record along, the rule
    tables of the [utils] module are an explicit record of association lists
    kept in the order the Python dictionaries iterate in, and exceptions are
    the [Raise] results of a small result type.  The [while] loop of [decode]
    takes a fuel argument, one unit per iteration; the termination theorem
    shows that the letter count of the word is enough whenever no letter
    combination of the table is the empty string. *)

From Stdlib Require Import Ascii String.
From stdpp Require Import base list strings gmap.

Local Open Scope string_scope.
Local Open Scope list_scope.
Local Open Scope nat_scope.

(** ** Python built-ins used by the decoder

    A Python [str] is a [string] of one-byte characters (the dictionary is
    ASCII); a Python tuple or list of phonemes is a [list]. *)

Module Py.

Definition is_upper (c : ascii) : bool :=
  (65 <=? nat_of_ascii c)%nat && (nat_of_ascii c <=? 90)%nat.

Definition is_lower (c : ascii) : bool :=
  (97 <=? nat_of_ascii c)%nat && (nat_of_ascii c <=? 122)%nat.

(** [c.isalpha()] for a one-character string *)
Definition isalpha (c : ascii) : bool := is_upper c || is_lower c.

Definition lower_char (c : ascii) : ascii :=
  if is_upper c then ascii_of_nat (nat_of_ascii c + 32) else c.

(** [s.lower()] *)
Fixpoint lower (s : string) : string :=
  match s with
  | "" => ""
  | String c s' => String (lower_char c) (lower s')
  end.

(** [s.startswith(p)] *)
Fixpoint startswith (s p : string) : bool :=
  match p, s with
  | "", _ => true
  | String _ _, "" => false
  | String b p', String a s' => bool_decide (a = b) && startswith s' p'
  end.

(** [s.endswith(p)] *)
Definition endswith (s p : string) : bool :=
  startswith (String.rev s) (String.rev p).

(** [c in chars] for a character and a string *)
Fixpoint char_in (c : ascii) (chars : string) : bool :=
  match chars with
  | "" => false
  | String d chars' => bool_decide (c = d) || char_in c chars'
  end.

(** [s.lstrip(chars)]: drops leading characters for as long as they
    belong to the SET of characters [chars]; it does not drop a prefix. *)
Fixpoint lstrip (s chars : string) : string :=
  match s with
  | "" => ""
  | String c s' => if char_in c chars then lstrip s' chars else s
  end.

(** [s.rstrip(chars)], the same from the right end *)
Definition rstrip (s chars : string) : string :=
  String.rev (lstrip (String.rev s) chars).

(** [s.replace(c, '')] for a one-character [c] *)
Fixpoint remove_char (c : ascii) (s : string) : string :=
  match s with
  | "" => ""
  | String d s' => if bool_decide (d = c) then remove_char c s' else String d (remove_char c s')
  end.

(** [s[1:]] *)
Definition tail (s : string) : string :=
  match s with
  | "" => ""
  | String _ s' => s'
  end.

(** [l[:n]] and [l[n:]] for [n >= 0] *)
Definition slice_to {A} (n : nat) (l : list A) : list A := take n l.
Definition slice_from {A} (n : nat) (l : list A) : list A := drop n l.

(** [l[-n:]]: for [n = 0] this is [l[0:]], the whole list *)
Definition slice_from_neg {A} (n : nat) (l : list A) : list A :=
  match n with
  | O => l
  | S _ => drop (length l - n) l
  end.

(** [l[:-n]]: for [n = 0] this is [l[:0]], the empty list *)
Definition slice_to_neg {A} (n : nat) (l : list A) : list A :=
  match n with
  | O => []
  | S _ => take (length l - n) l
  end.

(** [d.get(k, [])] and [d[k]] on a dictionary kept as its list of items *)
Fixpoint items_lookup {V} (k : string) (d : list (string * V)) : option V :=
  match d with
  | [] => None
  | (k', v) :: d' => if bool_decide (k' = k) then Some v else items_lookup k d'
  end.

Definition get {V} (d : list (string * list V)) (k : string) : list V :=
  default [] (items_lookup k d).

(** [''.join(parts)] *)
Fixpoint join (parts : list string) : string :=
  match parts with
  | [] => ""
  | part :: parts' => String.append part (join parts')
  end.

(** [l.index(x)]: the first position that holds [x]; [None] stands for
    the [ValueError] of a list without [x]. *)
Fixpoint index (x : string) (l : list string) : option nat :=
  match l with
  | [] => None
  | y :: l' => if bool_decide (y = x) then Some 0 else S <$> index x l'
  end.

(** [d[k] = v] on a dictionary kept as its list of items: an existing key
    keeps its place, a new one goes last. *)
Fixpoint setitem {V} (k : string) (v : V) (d : list (string * V)) : list (string * V) :=
  match d with
  | [] => [(k, v)]
  | (k', v') :: d' =>
      if bool_decide (k' = k) then (k, v) :: d' else (k', v') :: setitem k v d'
  end.

End Py.

(** ** Data model *)

Inductive Indicator : Type :=
  | SHORT_VOWEL
  | LONG_VOWEL
  | HARD_CONSONANT
  | SOFT_CONSONANT
  | LETTER_COMBO
  | SILENT_E
  | UNDECODABLE.

#[global] Instance Indicator_eq_dec : EqDecision Indicator.
Proof. solve_decision. Defined.

(** A phoneme is a symbol of the pronunciation dictionary; a sound is the
    tuple of phonemes a letter part stands for.  The silent E records the
    empty string [''] as its sound, which is the empty sequence here. *)
Definition phoneme : Type := string.
Definition sound : Type := list phoneme.

(** A rule table: letter pattern to its admissible sounds, in the order
    [dict.items()] yields them. *)
Definition table : Type := list (string * list sound).

(** The part of the [utils] module the decoder reads. *)
Record Utils : Type := {
  simplified_cmudict : gmap string (list phoneme);
  prefixes : table;
  suffixes : table;
  letter_combinations : table;
  short_vowels : table;
  long_vowels : table;
  hard_consonants : table;
  soft_consonants : table;
  all_vowel_sounds : list phoneme
}.

(** The three names the classifiers call as functions.  [word_decoder.py]
    neither defines nor imports any of them: a field is the function its
    name is bound to in the global scope of the module, and [None] when the
    name is unbound there. *)
Record Helpers : Type := {
  is_vowel_sound : option (phoneme -> bool);
  only_short_vowels : option (string -> bool);
  is_vowel : option (ascii -> bool)
}.

(** The global scope of [word_decoder.py] as it is written: the module
    imports [enum] and [utils] and defines [Indicator], [SOUND_CATEGORIES]
    and [WordDecoder], so none of the three names is bound. *)
Definition as_written : Helpers :=
  {| is_vowel_sound := None; only_short_vowels := None; is_vowel := None |}.

(** The exceptions the module can raise: its two [Exception]s, the
    built-in errors of a failed subscript and the [NameError] of an
    unbound name. *)
Inductive exn : Type :=
  | WordNotFound
  | MoreThanOneVowel (word : string)
  | KeyError (key : string)
  | IndexError
  | NameError (name : string).

Inductive result (A : Type) : Type :=
  | Ok (a : A)
  | Raise (e : exn).
Arguments Ok {A} a.
Arguments Raise {A} e.

(** The fields of a [WordDecoder] instance. *)
Record WordDecoder : Type := {
  word : string;
  word_phonemes : list phoneme;
  remaining_letters : string;
  remaining_sounds : list phoneme;
  letter_parts : list string;
  sound_parts : list sound;
  indicators : list Indicator;
  decodable : bool
}.

(** What one call of [process_affixes] returns. *)
Record affix_parts : Type := {
  affix_letter_parts : list string;
  affix_sound_parts : list sound;
  affix_indicators : list Indicator
}.

(** ** The decoder *)

Section Decoder.

Variable utils : Utils.

(** [SOUND_CATEGORIES], in the order of its dictionary literal *)
Definition SOUND_CATEGORIES : list (Indicator * table) :=
  [ (SHORT_VOWEL, short_vowels utils);
    (LONG_VOWEL, long_vowels utils);
    (HARD_CONSONANT, hard_consonants utils);
    (SOFT_CONSONANT, soft_consonants utils) ].

(** Assignment to [self.remaining_letters] and [self.remaining_sounds] *)
Definition set_remaining (self : WordDecoder) (letters : string) (sounds : list phoneme)
  : WordDecoder :=
  {| word := word self;
     word_phonemes := word_phonemes self;
     remaining_letters := letters;
     remaining_sounds := sounds;
     letter_parts := letter_parts self;
     sound_parts := sound_parts self;
     indicators := indicators self;
     decodable := decodable self |}.

(** The three [append]s every rule performs *)
Definition append_part (self : WordDecoder) (letters : string) (snd : sound)
    (indicator : Indicator) : WordDecoder :=
  {| word := word self;
     word_phonemes := word_phonemes self;
     remaining_letters := remaining_letters self;
     remaining_sounds := remaining_sounds self;
     letter_parts := letter_parts self ++ [letters];
     sound_parts := sound_parts self ++ [snd];
     indicators := indicators self ++ [indicator];
     decodable := decodable self |}.

Definition handle_undecodable (self : WordDecoder) : WordDecoder :=
  {| word := word self;
     word_phonemes := word_phonemes self;
     remaining_letters := "";
     remaining_sounds := [];
     letter_parts := letter_parts self ++ [remaining_letters self];
     sound_parts := sound_parts self ++ [remaining_sounds self];
     indicators := indicators self ++ [UNDECODABLE];
     decodable := false |}.

Definition empty_parts : affix_parts :=
  {| affix_letter_parts := []; affix_sound_parts := []; affix_indicators := [] |}.

Definition affix_letters_match (is_prefix : bool) (w affix_letters : string) : bool :=
  if is_prefix then Py.startswith w affix_letters else Py.endswith w affix_letters.

Definition affix_sounds_match (is_prefix : bool) (phonemes : list phoneme)
    (affix_sound : sound) : bool :=
  if is_prefix
  then bool_decide (Py.slice_to (length affix_sound) phonemes = affix_sound)
  else bool_decide (Py.slice_from_neg (length affix_sound) phonemes = affix_sound).

(** What [process_affixes] does on a match, before its [break] *)
Definition strip_affix (is_prefix : bool) (affix affix_letters : string)
    (affix_sound : sound) (acc : affix_parts) (self : WordDecoder)
  : affix_parts * WordDecoder :=
  let num_sounds := length affix_sound in
  ({| affix_letter_parts := affix_letter_parts acc ++ [affix];
      affix_sound_parts := affix_sound_parts acc ++ [affix_sound];
      affix_indicators := affix_indicators acc ++ [LETTER_COMBO] |},
   set_remaining self
     (if is_prefix then Py.lstrip (remaining_letters self) affix_letters
      else Py.rstrip (remaining_letters self) affix_letters)
     (if is_prefix then Py.slice_from num_sounds (remaining_sounds self)
      else Py.slice_to_neg num_sounds (remaining_sounds self))).

(** The inner [for affix_sound in affix_sounds], left by [break] at the
    first sound that matches *)
Fixpoint affix_sounds_loop (is_prefix : bool) (affix affix_letters : string)
    (letters_match : bool) (affix_sounds : list sound)
    (acc : affix_parts) (self : WordDecoder) : affix_parts * WordDecoder :=
  match affix_sounds with
  | [] => (acc, self)
  | affix_sound :: rest =>
      let sounds_match := affix_sounds_match is_prefix (word_phonemes self) affix_sound in
      if letters_match && sounds_match
      then strip_affix is_prefix affix affix_letters affix_sound acc self
      else affix_sounds_loop is_prefix affix affix_letters letters_match rest acc self
  end.

(** The outer [for affix, affix_sounds in affixes_dict.items()]: the [break]
    above leaves the inner loop only, so this one goes through every entry. *)
Fixpoint affixes_loop (is_prefix : bool) (items : table)
    (acc : affix_parts) (self : WordDecoder) : affix_parts * WordDecoder :=
  match items with
  | [] => (acc, self)
  | (affix, affix_sounds) :: rest =>
      let affix_letters := Py.remove_char "-" affix in
      let letters_match := affix_letters_match is_prefix (word self) affix_letters in
      let '(acc', self') :=
        affix_sounds_loop is_prefix affix affix_letters letters_match affix_sounds acc self in
      affixes_loop is_prefix rest acc' self'
  end.

Definition process_affixes (affixes_dict : table) (is_prefix : bool) (self : WordDecoder)
  : affix_parts * WordDecoder :=
  affixes_loop is_prefix affixes_dict empty_parts self.

Definition process_single_letter_sound (letter : string) (snd : sound)
    (indicator : Indicator) (self : WordDecoder) : WordDecoder :=
  let self' := append_part self letter snd indicator in
  set_remaining self'
    (Py.tail (remaining_letters self'))
    (match remaining_sounds self' with
     | [] => []
     | _ :: _ => Py.slice_from (length snd) (remaining_sounds self')
     end).

(** The inner [for sound in sounds] of the letter-combination search;
    [Some] is its [break]. *)
Fixpoint combo_sounds_loop (letters : string) (sounds : list sound) (self : WordDecoder)
  : option WordDecoder :=
  match sounds with
  | [] => None
  | snd :: rest =>
      if Py.startswith (remaining_letters self) letters
         && bool_decide (Py.slice_to (length snd) (remaining_sounds self) = snd)
      then
        let self' := append_part self letters snd LETTER_COMBO in
        Some (set_remaining self'
                (Py.lstrip (remaining_letters self') letters)
                (Py.slice_from (length snd) (remaining_sounds self')))
      else combo_sounds_loop letters rest self
  end.

(** The outer [for letters, sounds in utils.letter_combinations.items()];
    [None] is the run that reaches the loop's [else]. *)
Fixpoint combos_loop (items : table) (self : WordDecoder) : option WordDecoder :=
  match items with
  | [] => None
  | (letters, sounds) :: rest =>
      match combo_sounds_loop letters sounds self with
      | Some self' => Some self'
      | None => combos_loop rest self
      end
  end.

Definition silent_e_applies (this_letter : string) (self : WordDecoder) : bool :=
  (match remaining_sounds self with
   | [] => true
   | s0 :: _ => negb (bool_decide (s0 ∈ all_vowel_sounds utils))
   end)
  && bool_decide (this_letter = "e").

(** [for sound in sound_dict.get(this_letter, [])] *)
Fixpoint category_sounds_loop (this_letter : string) (indicator : Indicator)
    (sounds : list sound) (self : WordDecoder) (matched : bool) : WordDecoder * bool :=
  match sounds with
  | [] => (self, matched)
  | snd :: rest =>
      if bool_decide (Py.slice_to (length snd) (remaining_sounds self) = snd)
      then (process_single_letter_sound this_letter snd indicator self, true)
      else category_sounds_loop this_letter indicator rest self matched
  end.

(** [for indicator, sound_dict in SOUND_CATEGORIES.items()], left as soon as
    [matched] holds after a category, also when the silent E set it. *)
Fixpoint categories_loop (this_letter : string) (categories : list (Indicator * table))
    (self : WordDecoder) (matched : bool) : WordDecoder * bool :=
  match categories with
  | [] => (self, matched)
  | (indicator, sound_dict) :: rest =>
      let '(self', matched') :=
        category_sounds_loop this_letter indicator (Py.get sound_dict this_letter)
          self matched in
      if matched' then (self', matched')
      else categories_loop this_letter rest self' matched'
  end.

(** The [else] of the letter-combination search: one single letter *)
Definition single_letter (self : WordDecoder) : result WordDecoder :=
  match remaining_letters self with
  | "" => Raise IndexError
  | String c _ =>
      let this_letter := String c "" in
      if negb (Py.isalpha c)
      then Ok (set_remaining self (Py.tail (remaining_letters self)) (remaining_sounds self))
      else
        let '(self1, matched1) :=
          if silent_e_applies this_letter self
          then (process_single_letter_sound this_letter [] SILENT_E self, true)
          else (self, false) in
        let '(self2, matched2) :=
          categories_loop this_letter SOUND_CATEGORIES self1 matched1 in
        if negb matched2 then Ok (handle_undecodable self2) else Ok self2
  end.

(** One iteration of [while len(self.remaining_letters) > 0] *)
Definition loop_body (self : WordDecoder) : result WordDecoder :=
  match combos_loop (letter_combinations utils) self with
  | Some self' => Ok self'
  | None => single_letter self
  end.

(** The [while] loop; [None] when [fuel] iterations were not enough. *)
Fixpoint while_loop (fuel : nat) (self : WordDecoder) : option (result WordDecoder) :=
  match remaining_letters self with
  | "" => Some (Ok self)
  | String _ _ =>
      match fuel with
      | O => None
      | S fuel' =>
          match loop_body self with
          | Ok self' => while_loop fuel' self'
          | Raise e => Some (Raise e)
          end
      end
  end.

(** "Add back in the suffixes" *)
Definition splice (pre suf : affix_parts) (self : WordDecoder) : WordDecoder :=
  {| word := word self;
     word_phonemes := word_phonemes self;
     remaining_letters := remaining_letters self;
     remaining_sounds := remaining_sounds self;
     letter_parts := affix_letter_parts pre ++ letter_parts self ++ affix_letter_parts suf;
     sound_parts := affix_sound_parts pre ++ sound_parts self ++ affix_sound_parts suf;
     indicators := affix_indicators pre ++ indicators self ++ affix_indicators suf;
     decodable := decodable self |}.

Definition decode (fuel : nat) (self : WordDecoder) : option (result WordDecoder) :=
  let '(pre, self1) := process_affixes (prefixes utils) true self in
  let '(suf, self2) := process_affixes (suffixes utils) false self1 in
  match while_loop fuel self2 with
  | None => None
  | Some (Raise e) => Some (Raise e)
  | Some (Ok self3) => Some (Ok (splice pre suf self3))
  end.

(** The two calls of [process_affixes] at the head of [decode]: the prefix
    and suffix segments they return and the decoder they leave. *)
Definition strip_affixes (self : WordDecoder) : affix_parts * affix_parts * WordDecoder :=
  let '(pre, self1) := process_affixes (prefixes utils) true self in
  let '(suf, self2) := process_affixes (suffixes utils) false self1 in
  (pre, suf, self2).

(** The state [__init__] sets up before it calls [decode] *)
Definition fresh (w : string) (phonemes : list phoneme) : WordDecoder :=
  {| word := w;
     word_phonemes := phonemes;
     remaining_letters := w;
     remaining_sounds := phonemes;
     letter_parts := [];
     sound_parts := [];
     indicators := [];
     decodable := true |}.

(** [WordDecoder(word)] *)
Definition WordDecoder_init (fuel : nat) (w : string) : option (result WordDecoder) :=
  let w' := Py.lower w in
  match simplified_cmudict utils !! w' with
  | None => Some (Raise WordNotFound)
  | Some phonemes => decode fuel (fresh w' phonemes)
  end.

(** *** The loop body as a relation

    [rule_fires self self'] lists what one iteration of the [while] loop can
    do to the decoder, one constructor per way through the loop body;
    [loop_body_fires] below shows that every iteration is one of these. *)

Inductive rule_fires (self : WordDecoder) : WordDecoder → Prop :=
  | fires_combo letters sounds snd :
      (letters, sounds) ∈ letter_combinations utils →
      snd ∈ sounds →
      Py.startswith (remaining_letters self) letters = true →
      Py.slice_to (length snd) (remaining_sounds self) = snd →
      rule_fires self
        (set_remaining (append_part self letters snd LETTER_COMBO)
           (Py.lstrip (remaining_letters self) letters)
           (Py.slice_from (length snd) (remaining_sounds self)))
  | fires_punctuation c rest :
      remaining_letters self = String c rest →
      Py.isalpha c = false →
      rule_fires self (set_remaining self rest (remaining_sounds self))
  | fires_silent_e rest :
      remaining_letters self = String "e" rest →
      silent_e_applies "e" self = true →
      rule_fires self (process_single_letter_sound "e" [] SILENT_E self)
  | fires_silent_e_then_category rest indicator sound_dict snd :
      remaining_letters self = String "e" rest →
      silent_e_applies "e" self = true →
      (indicator, sound_dict) ∈ SOUND_CATEGORIES →
      Py.slice_to (length snd)
        (remaining_sounds (process_single_letter_sound "e" [] SILENT_E self)) = snd →
      rule_fires self
        (process_single_letter_sound "e" snd indicator
           (process_single_letter_sound "e" [] SILENT_E self))
  | fires_category c rest indicator sound_dict snd :
      remaining_letters self = String c rest →
      (indicator, sound_dict) ∈ SOUND_CATEGORIES →
      Py.slice_to (length snd) (remaining_sounds self) = snd →
      rule_fires self (process_single_letter_sound (String c "") snd indicator self)
  | fires_undecodable c rest :
      remaining_letters self = String c rest →
      loop_body self = Ok (handle_undecodable self) →
      rule_fires self (handle_undecodable self).

(** The states the [while] loop goes through from a given one: the loop
    test holds and the body takes the decoder to the next state. *)
Inductive loop_reaches : WordDecoder → WordDecoder → Prop :=
  | reaches_here self : loop_reaches self self
  | reaches_next self self' self'' :
      remaining_letters self ≠ "" →
      loop_body self = Ok self' →
      loop_reaches self' self'' →
      loop_reaches self self''.

(** A decoder that has met no undecodable letter so far *)
Definition all_decoded (self : WordDecoder) : Prop :=
  decodable self = true ∧ UNDECODABLE ∉ indicators self.

(** Two decoder states that differ in the remaining letters and sounds only *)
Definition same_parts (self self' : WordDecoder) : Prop :=
  word self' = word self
  ∧ word_phonemes self' = word_phonemes self
  ∧ letter_parts self' = letter_parts self
  ∧ sound_parts self' = sound_parts self
  ∧ indicators self' = indicators self
  ∧ decodable self' = decodable self.

(** Removing one matched affix sound from the remaining phonemes *)
Definition strip_sounds (is_prefix : bool) (rest : list phoneme) (affix_sound : sound)
  : list phoneme :=
  if is_prefix then Py.slice_from (length affix_sound) rest
  else Py.slice_to_neg (length affix_sound) rest.

End Decoder.

(** ** The pattern classifiers *)

(** A statement of a function body either completes the call, by [return]
    or [raise], or falls through to the statements after it. *)
Definition stmt (A : Type) : Type := option (result A).

Definition return_ {A} (a : A) : stmt A := Some (Ok a).
Definition raise_ {A} (e : exn) : stmt A := Some (Raise e).

(** [name(arg)] for a module-level [name]: the call of the function the
    name is bound to, or [NameError] *)
Definition call {A B} (name : string) (binding : option (A -> B)) (arg : A)
  : result B :=
  match binding with
  | Some f => Ok (f arg)
  | None => Raise (NameError name)
  end.

(** [not a], [a or b] and [a and b] on operands that may raise: the right
    operand counts only when the left one has not settled the outcome. *)
Definition not_ (a : result bool) : result bool :=
  match a with
  | Ok b => Ok (negb b)
  | Raise e => Raise e
  end.

Definition or_ (a b : result bool) : result bool :=
  match a with
  | Ok true => Ok true
  | Ok false => b
  | Raise e => Raise e
  end.

Definition and_ (a b : result bool) : result bool :=
  match a with
  | Ok true => b
  | Ok false => Ok false
  | Raise e => Raise e
  end.

(** [if c: s] *)
Definition if_ {A} (c : result bool) (s : stmt A) : stmt A :=
  match c with
  | Ok true => s
  | Ok false => None
  | Raise e => Some (Raise e)
  end.

(** [s ;;; k]: statement [s], then the rest [k] of the body *)
Definition seq {A} (s : stmt A) (k : result A) : result A :=
  match s with
  | Some r => r
  | None => k
  end.

Notation "s ;;; k" := (seq s k) (at level 100, k at level 200, right associativity).

(** [any(f(letter) for letter in s)] for a total [f] *)
Fixpoint any_letter (f : ascii -> bool) (s : string) : bool :=
  match s with
  | "" => false
  | String c s' => f c || any_letter f s'
  end.

(** [any(f(letter) for letter in s)] for a call that may raise: the
    generator calls [f] letter by letter, so not at all on the empty
    string, and stops at the first letter that gives true. *)
Fixpoint any_call (f : ascii -> result bool) (s : string) : result bool :=
  match s with
  | "" => Ok false
  | String c s' => or_ (f c) (any_call f s')
  end.

(** [word[i]], read where the length of the word has been tested *)
Definition char_at (i : nat) (w : string) : ascii :=
  default "000"%char (String.get i w).

Section Classifiers.

Variable utils : Utils.
Variable helpers : Helpers.

(** The default [None] of [allowed_blends_and_digraphs] becomes [[]]. *)
Definition blends_or_default (allowed_blends_and_digraphs : option (list string))
  : list string :=
  default [] allowed_blends_and_digraphs.

(** [len(sounds) != 2 or not is_vowel_sound(sounds[0]) or is_vowel_sound(sounds[1])];
    [or] evaluates its right operand only when the left one is false, so
    the name [is_vowel_sound] is looked up, and the subscripts are
    evaluated, on two-element sequences only. *)
Definition not_vowel_then_consonant (sounds : list phoneme) : result bool :=
  or_ (Ok (negb (length sounds =? 2)%nat))
    (or_ (not_ (call "is_vowel_sound" (is_vowel_sound helpers) (nth 0 sounds "")))
       (call "is_vowel_sound" (is_vowel_sound helpers) (nth 1 sounds ""))).

Definition is_vc (w : string) (allowed_blends_and_digraphs : option (list string))
    (include_long_vowels : bool) : result bool :=
  let allowed := blends_or_default allowed_blends_and_digraphs in
  match simplified_cmudict utils !! w with
  | None => Raise (KeyError w)
  | Some sounds =>
      if_ (not_vowel_then_consonant sounds) (return_ false) ;;;
      if_ (and_ (Ok (negb include_long_vowels))
             (not_ (call "only_short_vowels" (only_short_vowels helpers) w)))
        (return_ false) ;;;
      let consonant_part := Py.tail w in
      if_ (any_call (call "is_vowel" (is_vowel helpers)) consonant_part)
        (raise_ (MoreThanOneVowel w)) ;;;
      Ok ((String.length consonant_part =? 1)%nat
          || bool_decide (consonant_part ∈ allowed))
  end.

(** [len(word) == 3 and not is_vowel(word[0]) and is_vowel(word[1]) and
    not is_vowel(word[2])], the expression of the last line of [is_cvc] *)
Definition three_letter_shape (w : string) : result bool :=
  and_ (Ok (String.length w =? 3)%nat)
    (and_ (not_ (call "is_vowel" (is_vowel helpers) (char_at 0 w)))
       (and_ (call "is_vowel" (is_vowel helpers) (char_at 1 w))
          (not_ (call "is_vowel" (is_vowel helpers) (char_at 2 w))))).

(** The body of [is_cvc] up to and including its first [return], followed
    by [trailing]. *)
Definition is_cvc_then (trailing : result bool) (w : string)
    (allowed_blends_and_digraphs : option (list string))
    (include_long_vowels : bool) : result bool :=
  let allowed := blends_or_default allowed_blends_and_digraphs in
  match simplified_cmudict utils !! w with
  | None => Raise (KeyError w)
  | Some sounds =>
      if_ (not_vowel_then_consonant sounds) (return_ false) ;;;
      if_ (and_ (Ok (negb include_long_vowels))
             (not_ (call "only_short_vowels" (only_short_vowels helpers) w)))
        (return_ false) ;;;
      let consonant_part := Py.tail w in
      if_ (any_call (call "is_vowel" (is_vowel helpers)) consonant_part)
        (raise_ (MoreThanOneVowel w)) ;;;
      return_ ((String.length consonant_part =? 1)%nat
               || bool_decide (consonant_part ∈ allowed)) ;;;
      trailing
  end.

Definition is_cvc (w : string) (allowed_blends_and_digraphs : option (list string))
    (include_long_vowels : bool) : result bool :=
  is_cvc_then (three_letter_shape w) w allowed_blends_and_digraphs
    include_long_vowels.

End Classifiers.

(** ** The VC shape as the specification words it

    "Exactly two phonemes, the first a vowel sound and the second not; the
    vowel is a short-vowel sound unless long vowels are permitted; the
    letters after the first form a single letter or a string of the allowed
    blends and digraphs."  [Phonics] holds what the words "vowel sound",
    "short-vowel sound" and "vowel letter" stand for, the functions the
    three helper names are meant to be; [is_vc] is compared with
    [vc_as_specified] below. *)
Record Phonics : Type := {
  vowel_sound : phoneme -> bool;
  short_vowels_only : string -> bool;
  vowel_letter : ascii -> bool
}.

Definition vc_as_specified (utils : Utils) (phonics : Phonics) (w : string)
    (allowed : list string) (include_long_vowels : bool) : Prop :=
  (∃ v c, simplified_cmudict utils !! w = Some [v; c]
          ∧ vowel_sound phonics v = true
          ∧ vowel_sound phonics c = false)
  ∧ (include_long_vowels = true ∨ short_vowels_only phonics w = true)
  ∧ (String.length (Py.tail w) = 1 ∨ Py.tail w ∈ allowed).

(** A global scope in which the three names are bound to these functions,
    as they would be had the module defined or imported them *)
Definition bound (phonics : Phonics) : Helpers :=
  {| is_vowel_sound := Some (vowel_sound phonics);
     only_short_vowels := Some (short_vowels_only phonics);
     is_vowel := Some (vowel_letter phonics) |}.

(** ** Example rule tables and helpers *)

Module Examples.

Definition vowel_sounds : list phoneme :=
  ["AE"; "EH"; "IH"; "AA"; "AH"; "EY"; "IY"; "AY"; "OW"; "UW"].

Definition short_vowel_sounds : list phoneme :=
  ["AE"; "EH"; "IH"; "AA"; "AH"].

Definition rules : Utils :=
  {| simplified_cmudict :=
       list_to_map
         [ ("at", ["AE"; "T"]);
           ("air", ["EH"; "R"]);
           ("boat", ["B"; "OW"; "T"]);
           ("x", ["K"; "S"]);
           ("tests", ["T"; "EH"; "S"; "T"; "S"]);
           ("internal", ["IH"; "N"; "T"; "ER"; "N"; "AH"; "L"]);
           ("won't", ["W"; "OW"; "N"; "T"]);
           ("unfit", ["AH"; "N"; "F"; "IH"; "T"]);
           ("cake", ["K"; "EY"; "K"]) ];
     prefixes :=
       [ ("un-", [["AH"; "N"]]);
         ("in-", [["IH"; "N"]]);
         ("inter-", [["IH"; "N"; "T"; "ER"]]) ];
     suffixes := [ ("-al", [["AH"; "L"]]) ];
     letter_combinations := [ ("st", [["S"; "T"]]); ("ck", [["K"]]) ];
     short_vowels :=
       [ ("a", [["AE"]]); ("e", [["EH"]]); ("i", [["IH"]]); ("o", [["AA"]]);
         ("u", [["AH"]]) ];
     long_vowels :=
       [ ("a", [["EY"]]); ("e", [["IY"]]); ("i", [["AY"]]); ("o", [["OW"]]);
         ("u", [["UW"]]) ];
     hard_consonants :=
       [ ("b", [["B"]]); ("c", [["K"]]); ("f", [["F"]]); ("k", [["K"]]);
         ("n", [["N"]]); ("r", [["R"]]); ("s", [["S"]]); ("t", [["T"]]);
         ("w", [["W"]]); ("x", [["K"]]) ];
     soft_consonants := [ ("c", [["S"]]) ];
     all_vowel_sounds := vowel_sounds |}.

Definition phonics : Phonics :=
  {| vowel_sound := fun p => bool_decide (p ∈ vowel_sounds);
     short_vowels_only := fun w =>
       forallb (fun p => bool_decide (p ∈ vowel_sounds → p ∈ short_vowel_sounds))
         (default [] (simplified_cmudict rules !! w));
     vowel_letter := fun c => Py.char_in c "aeiou" |}.

(** The states of a few words, computed with the definitions above *)

Definition unfit_phonemes : list phoneme := ["AH"; "N"; "F"; "IH"; "T"].

Definition unfit_stripped : affix_parts * affix_parts * WordDecoder :=
  Eval vm_compute in strip_affixes rules (fresh "unfit" unfit_phonemes).

Definition decoded_or_fresh (r : option (result WordDecoder)) : WordDecoder :=
  match r with
  | Some (Ok d) => d
  | _ => fresh "" []
  end.

Definition unfit_decoded : WordDecoder :=
  Eval vm_compute in decoded_or_fresh (WordDecoder_init rules 5 "unfit").

Definition boat_decoded : WordDecoder :=
  Eval vm_compute in decoded_or_fresh (WordDecoder_init rules 4 "boat").

Definition tests_decoded : WordDecoder :=
  Eval vm_compute in decoded_or_fresh (WordDecoder_init rules 5 "tests").

Definition x_decoded : WordDecoder :=
  Eval vm_compute in decoded_or_fresh (WordDecoder_init rules 1 "x").

Definition wont_decoded : WordDecoder :=
  Eval vm_compute in decoded_or_fresh (WordDecoder_init rules 5 "Won't").

End Examples.

(** ** The loop body, rule by rule

    [decode_step] is [rule_fires] with everything the loop body has tested
    on the way to each rule: that no letter combination matched, which
    sound of which table matched, and that nothing matched before the word
    is given up. *)

Section Steps.

Variable utils : Utils.

Inductive decode_step (self : WordDecoder) : WordDecoder → Prop :=
  | step_combination letters sounds snd :
      (letters, sounds) ∈ letter_combinations utils →
      snd ∈ sounds →
      Py.startswith (remaining_letters self) letters = true →
      Py.slice_to (length snd) (remaining_sounds self) = snd →
      decode_step self
        (set_remaining (append_part self letters snd LETTER_COMBO)
           (Py.lstrip (remaining_letters self) letters)
           (Py.slice_from (length snd) (remaining_sounds self)))
  | step_punctuation c rest :
      combos_loop (letter_combinations utils) self = None →
      remaining_letters self = String c rest →
      Py.isalpha c = false →
      decode_step self (set_remaining self rest (remaining_sounds self))
  | step_silent_e rest :
      combos_loop (letter_combinations utils) self = None →
      remaining_letters self = String "e" rest →
      silent_e_applies utils "e" self = true →
      (∀ snd, snd ∈ Py.get (short_vowels utils) "e" →
              Py.slice_to (length snd) (remaining_sounds self) ≠ snd) →
      decode_step self (process_single_letter_sound "e" [] SILENT_E self)
  | step_silent_e_and_short_vowel rest snd :
      combos_loop (letter_combinations utils) self = None →
      remaining_letters self = String "e" rest →
      silent_e_applies utils "e" self = true →
      snd ∈ Py.get (short_vowels utils) "e" →
      Py.slice_to (length snd) (remaining_sounds self) = snd →
      decode_step self
        (process_single_letter_sound "e" snd SHORT_VOWEL
           (process_single_letter_sound "e" [] SILENT_E self))
  | step_category c rest indicator sound_dict snd :
      combos_loop (letter_combinations utils) self = None →
      remaining_letters self = String c rest →
      Py.isalpha c = true →
      silent_e_applies utils (String c "") self = false →
      (indicator, sound_dict) ∈ SOUND_CATEGORIES utils →
      snd ∈ Py.get sound_dict (String c "") →
      Py.slice_to (length snd) (remaining_sounds self) = snd →
      decode_step self (process_single_letter_sound (String c "") snd indicator self)
  | step_undecodable c rest :
      combos_loop (letter_combinations utils) self = None →
      remaining_letters self = String c rest →
      Py.isalpha c = true →
      silent_e_applies utils (String c "") self = false →
      (∀ indicator sound_dict snd,
         (indicator, sound_dict) ∈ SOUND_CATEGORIES utils →
         snd ∈ Py.get sound_dict (String c "") →
         Py.slice_to (length snd) (remaining_sounds self) ≠ snd) →
      decode_step self (handle_undecodable self).

(** The segments of a decoder: letter part, sound part and indicator at
    the same position of the three lists *)
Definition segments (self : WordDecoder) : list (string * sound * Indicator) :=
  zip (zip (letter_parts self) (sound_parts self)) (indicators self).

(** The three lists of a decoder have one length. *)
Definition aligned (self : WordDecoder) : Prop :=
  length (letter_parts self) = length (sound_parts self)
  ∧ length (sound_parts self) = length (indicators self).

(** The rule behind a segment of the word [w] with the phonemes
    [phonemes]: an entry of a table that lists the sound under the letters,
    the silent E, or the undecodable rest. *)
Inductive justified (w : string) (phonemes : list phoneme)
  : string * sound * Indicator → Prop :=
  | by_prefix affix sounds snd :
      (affix, sounds) ∈ prefixes utils →
      snd ∈ sounds →
      Py.startswith w (Py.remove_char "-" affix) = true →
      Py.slice_to (length snd) phonemes = snd →
      justified w phonemes (affix, snd, LETTER_COMBO)
  | by_suffix affix sounds snd :
      (affix, sounds) ∈ suffixes utils →
      snd ∈ sounds →
      Py.endswith w (Py.remove_char "-" affix) = true →
      Py.slice_from_neg (length snd) phonemes = snd →
      justified w phonemes (affix, snd, LETTER_COMBO)
  | by_combination letters sounds snd :
      (letters, sounds) ∈ letter_combinations utils →
      snd ∈ sounds →
      justified w phonemes (letters, snd, LETTER_COMBO)
  | by_category c indicator sound_dict snd :
      (indicator, sound_dict) ∈ SOUND_CATEGORIES utils →
      snd ∈ Py.get sound_dict (String c "") →
      justified w phonemes (String c "", snd, indicator)
  | by_silent_e :
      justified w phonemes ("e", [], SILENT_E)
  | by_undecodable letters snd :
      letters ≠ "" →
      justified w phonemes (letters, snd, UNDECODABLE).

(** A table without the empty tuple among its sounds *)
Definition no_empty_sound (t : table) : Prop :=
  Forall (λ entry, [] ∉ entry.2) t.

End Steps.

(** The segments one call of [process_affixes] returns *)
Definition affix_segments (parts : affix_parts) : list (string * sound * Indicator) :=
  zip (zip (affix_letter_parts parts) (affix_sound_parts parts)) (affix_indicators parts).

(** Whether an entry of an affix table matches the word of the decoder on
    letters and on phonemes, as [process_affixes] tests it *)
Definition entry_matches (is_prefix : bool) (self : WordDecoder)
    (entry : string * list sound) : bool :=
  affix_letters_match is_prefix (word self) (Py.remove_char "-" entry.1)
  && existsb (affix_sounds_match is_prefix (word_phonemes self)) entry.2.

(** [''.join(c for c in s if c.isalpha())]: the letters of a string *)
Fixpoint alphabetic (s : string) : string :=
  match s with
  | "" => ""
  | String c s' => if Py.isalpha c then String c (alphabetic s') else alphabetic s'
  end.

(** The letters are kept by every rule but the letter combination, which
    is out when [LETTER_COMBO] is no indicator, and the silent E taken a
    second time as a short vowel, which is out when every short-vowel sound
    of "e" begins with a vowel sound. *)
Definition letters_kept (w : string) (self : WordDecoder) : Prop :=
  LETTER_COMBO ∉ indicators self →
  alphabetic (String.append (Py.join (letter_parts self)) (remaining_letters self))
  = alphabetic w
  ∧ (decodable self = true →
     alphabetic (Py.join (letter_parts self)) = Py.join (letter_parts self)).

(** ** The [Word] class of [word.py]

    Its rank and its phoneme bitmaps; the part of speech comes from an
    external language model and is left out. *)

(** The tables of [utils] that only [word.py] reads *)
Record WordTables : Type := {
  secondary_vowel_pronunciations : table;
  vowel_teams : table;
  digraphs : table;
  double_letters : table;
  prefix_digraphs : table;
  prefix_blends : table;
  suffix_blends : table;
  common_endings : table;
  top_n : list string
}.

(** What [word.py] can raise besides the decoder's errors *)
Inductive py_error : Type :=
  | FromDecoder (e : exn)
  | ValueError.

Inductive outcome (A : Type) : Type :=
  | Done (a : A)
  | Failed (e : py_error).
Arguments Done {A} a.
Arguments Failed {A} e.

(** A line [print(letter_part, place, phon)] writes *)
Definition printed : Type := string * nat * list sound.

Section WordClass.

Variable utils : Utils.
Variable more : WordTables.

(** [PHONEME_SETS], in the order of its dictionary literal *)
Definition PHONEME_SETS : list (string * table) :=
  [ ("hard_consonants", hard_consonants utils);
    ("soft_consonants", soft_consonants utils);
    ("short_vowels", short_vowels utils);
    ("long_vowels", long_vowels utils);
    ("secondary_vowel_pronunciations", secondary_vowel_pronunciations more);
    ("vowel_teams", vowel_teams more);
    ("digraphs", digraphs more);
    ("double_letters", double_letters more);
    ("prefix_digraphs", prefix_digraphs more);
    ("prefix_blends", prefix_blends more);
    ("suffix_blends", suffix_blends more);
    ("common_endings", common_endings more) ].

(** [Word.get_rank]: [utils.top_n.index(self.word)], on the word as given *)
Definition get_rank (w : string) : outcome nat :=
  match Py.index w (top_n more) with
  | Some rank => Done rank
  | None => Failed ValueError
  end.

(** [self.decoder.sound_parts[place] in phon].  The sound part of a silent
    E is the string [''], which is equal to no tuple of [phon]; it is the
    sound part of the segments tagged [SILENT_E] and of no other. *)
Definition sound_part_listed (decoder : WordDecoder) (place : nat) (snd : sound)
    (phon : list sound) : bool :=
  match indicators decoder !! place with
  | Some SILENT_E => false
  | _ => bool_decide (snd ∈ phon)
  end.

(** The inner loop [for i, (letter_part, phon) in enumerate(...items())] on
    the array [bitmap]; [out] collects the printed lines, which stay
    printed when the loop raises. *)
Fixpoint bitmap_loop (decoder : WordDecoder) (items : table) (i : nat)
    (bitmap : list Z) (out : list printed) : outcome (list Z) * list printed :=
  match items with
  | [] => (Done bitmap, out)
  | (letter_part, phon) :: rest =>
      if bool_decide (letter_part ∈ letter_parts decoder)
      then
        match Py.index letter_part (letter_parts decoder) with
        | None => (Failed ValueError, out)
        | Some place =>
            let out' := out ++ [(letter_part, place, phon)] in
            match sound_parts decoder !! place with
            | None => (Failed (FromDecoder IndexError), out')
            | Some snd =>
                if sound_part_listed decoder place snd phon
                then bitmap_loop decoder rest (S i) (<[i:=1%Z]> bitmap) out'
                else bitmap_loop decoder rest (S i) bitmap out'
            end
        end
      else bitmap_loop decoder rest (S i) bitmap out
  end.

(** The outer loop [for p_set in PHONEME_SETS] *)
Fixpoint bitmaps_loop (decoder : WordDecoder) (sets : list (string * table))
    (bitmaps : list (string * list Z)) (out : list printed)
  : outcome (list (string * list Z)) * list printed :=
  match sets with
  | [] => (Done bitmaps, out)
  | (p_set, items) :: rest =>
      match bitmap_loop decoder items 0 (replicate (length items) 0%Z) out with
      | (Failed e, out') => (Failed e, out')
      | (Done bitmap, out') =>
          bitmaps_loop decoder rest (Py.setitem p_set bitmap bitmaps) out'
      end
  end.

(** [Word.get_phoneme_bitmaps]: the dictionary of bitmaps it returns and
    the lines it prints *)
Definition get_phoneme_bitmaps (decoder : WordDecoder)
  : outcome (list (string * list Z)) * list printed :=
  bitmaps_loop decoder PHONEME_SETS [] [].

(** The bit of one table entry, in closed form: 1 when the entry's letters
    are a letter part of the word and the sound part at their first
    occurrence is one of the entry's sounds. *)
Definition entry_bit (decoder : WordDecoder) (entry : string * list sound) : Z :=
  match Py.index entry.1 (letter_parts decoder) with
  | None => 0%Z
  | Some place =>
      match sound_parts decoder !! place with
      | None => 0%Z
      | Some snd => if sound_part_listed decoder place snd entry.2 then 1%Z else 0%Z
      end
  end.

(** The line one table entry makes the inner loop print, if any *)
Definition entry_line (decoder : WordDecoder) (entry : string * list sound)
  : option printed :=
  (λ place, (entry.1, place, entry.2)) <$> Py.index entry.1 (letter_parts decoder).

(** The bitmap of one table in closed form, and the lines its loop prints *)
Definition set_bitmap (decoder : WordDecoder) (set : string * table)
  : string * list Z :=
  (set.1, entry_bit decoder <$> set.2).

Definition set_lines (decoder : WordDecoder) (set : string * table) : list printed :=
  omap (entry_line decoder) set.2.

End WordClass.

(** ** Example tables and states for the [Word] class and the loop *)

Module WordExamples.

Definition tables : WordTables :=
  {| secondary_vowel_pronunciations := [ ("a", [["AH"]]) ];
     vowel_teams := [ ("oa", [["OW"]]) ];
     digraphs := [ ("ck", [["K"]]) ];
     double_letters := [];
     prefix_digraphs := [];
     prefix_blends := [ ("st", [["S"; "T"]]) ];
     suffix_blends := [ ("st", [["S"; "T"]]) ];
     common_endings := [ ("-al", [["AH"; "L"]]) ];
     top_n := ["the"; "at"; "cake"; "at"] |}.

(** "sts" before and after the letter combination "st" is taken *)
Definition sts_before : WordDecoder := fresh "sts" ["S"; "T"; "S"].

Definition sts_after : WordDecoder :=
  Eval vm_compute in
    default sts_before (combos_loop (letter_combinations Examples.rules) sts_before).

(** "cake" when its phonemes are used up and "e" is left *)
Definition cake_at_e : WordDecoder :=
  {| word := "cake";
     word_phonemes := ["K"; "EY"; "K"];
     remaining_letters := "e";
     remaining_sounds := [];
     letter_parts := ["c"; "a"; "k"];
     sound_parts := [["K"]; ["EY"]; ["K"]];
     indicators := [HARD_CONSONANT; LONG_VOWEL; HARD_CONSONANT];
     decodable := true |}.

Definition cake_decoded : WordDecoder :=
  Eval vm_compute in
    Examples.decoded_or_fresh (WordDecoder_init Examples.rules 4 "cake").

End WordExamples.

(** * Properties *)

(** ** The pattern classifiers *)

Section ClassifierFacts.

Variable utils : Utils.
Variable helpers : Helpers.

Lemma is_cvc_then_is_vc (trailing : result bool) (w : string)
    (allowed : option (list string)) (include_long_vowels : bool) :
  is_cvc_then utils helpers trailing w allowed include_long_vowels
    = is_vc utils helpers w allowed include_long_vowels.
Proof.
  unfold is_cvc_then, is_vc.
  destruct (simplified_cmudict utils !! w) as [sounds|]; [|done].
  destruct (not_vowel_then_consonant helpers sounds) as [[|]|]; [done| |done].
  destruct (and_ (Ok (negb include_long_vowels))
              (not_ (call "only_short_vowels" (only_short_vowels helpers) w)))
    as [[|]|]; [done| |done].
  by destruct (any_call (call "is_vowel" (is_vowel helpers)) (Py.tail w)) as [[|]|].
Qed.

(** C3: for every word, set of allowed blends and long-vowel flag, [is_cvc]
    has the same outcome as [is_vc], the same boolean or the same raised
    error; whatever statement follows the first [return] of [is_cvc] is
    never reached, so the three-letter shape check has no effect. *)
Theorem is_cvc_same_as_is_vc (w : string) (allowed : option (list string))
    (include_long_vowels : bool) :
  is_cvc utils helpers w allowed include_long_vowels
    = is_vc utils helpers w allowed include_long_vowels
  ∧ ∀ trailing : result bool,
      is_cvc_then utils helpers trailing w allowed include_long_vowels
        = is_vc utils helpers w allowed include_long_vowels.
Proof.
  split; [apply is_cvc_then_is_vc | intros trailing; apply is_cvc_then_is_vc].
Qed.

(** A word of the dictionary without exactly two phonemes gets [False] at
    the first test, before any helper name is looked up. *)
Lemma is_vc_not_two_phonemes (w : string) (sounds : list phoneme)
    (allowed : option (list string)) (include_long_vowels : bool) :
  simplified_cmudict utils !! w = Some sounds →
  length sounds ≠ 2 →
  is_vc utils helpers w allowed include_long_vowels = Ok false.
Proof.
  intros Hw Hlen. unfold is_vc, not_vowel_then_consonant. rewrite Hw.
  apply Nat.eqb_neq in Hlen. by rewrite Hlen.
Qed.

Lemma is_vc_raises_two_phonemes (w : string) (sounds : list phoneme)
    (allowed : option (list string)) (include_long_vowels : bool) (e : exn) :
  simplified_cmudict utils !! w = Some sounds →
  is_vc utils helpers w allowed include_long_vowels = Raise e →
  length sounds = 2.
Proof.
  intros Hw Hraise. destruct (decide (length sounds = 2)) as [|Hlen]; [done|].
  by rewrite (is_vc_not_two_phonemes _ _ _ _ Hw Hlen) in Hraise.
Qed.

(** The module as it is written: the outcome of [is_vc] is settled by the
    dictionary and the number of phonemes alone. *)
Lemma is_vc_as_written (w : string) (allowed : option (list string))
    (include_long_vowels : bool) :
  is_vc utils as_written w allowed include_long_vowels
  = match simplified_cmudict utils !! w with
    | None => Raise (KeyError w)
    | Some sounds =>
        if (length sounds =? 2)%nat then Raise (NameError "is_vowel_sound")
        else Ok false
    end.
Proof.
  unfold is_vc, not_vowel_then_consonant.
  destruct (simplified_cmudict utils !! w) as [sounds|]; [|done].
  by destruct (length sounds =? 2)%nat.
Qed.

(** C6, amended: a word of the dictionary whose phoneme sequence does not
    have exactly two phonemes gets false from [is_vc] and from [is_cvc]
    whatever its letters, a vowel letter after the first included; the two
    can raise for words of exactly two phonemes only. *)
Theorem is_vc_false_before_the_letters (w : string) (sounds : list phoneme)
    (allowed : option (list string)) (include_long_vowels : bool) :
  simplified_cmudict utils !! w = Some sounds →
  (length sounds ≠ 2 →
   is_vc utils helpers w allowed include_long_vowels = Ok false
   ∧ is_cvc utils helpers w allowed include_long_vowels = Ok false)
  ∧ (∀ e, is_vc utils helpers w allowed include_long_vowels = Raise e
          ∨ is_cvc utils helpers w allowed include_long_vowels = Raise e →
          length sounds = 2).
Proof.
  intros Hw. unfold is_cvc. rewrite is_cvc_then_is_vc. split.
  - intros Hlen. split; by apply (is_vc_not_two_phonemes _ sounds).
  - intros e [Hraise|Hraise]; by apply (is_vc_raises_two_phonemes _ _ _ _ _ Hw Hraise).
Qed.

End ClassifierFacts.

(** ** Python strings and slices *)

Lemma length_rev_app (s1 s2 : string) :
  String.length (String.rev_app s1 s2) = String.length s1 + String.length s2.
Proof.
  revert s2. induction s1 as [|c s1 IH]; intros s2; simpl; [done|].
  rewrite IH. simpl. lia.
Qed.

Lemma length_rev (s : string) : String.length (String.rev s) = String.length s.
Proof. unfold String.rev. rewrite length_rev_app. simpl. lia. Qed.

Lemma length_lower (s : string) : String.length (Py.lower s) = String.length s.
Proof. induction s as [|c s IH]; simpl; [done|]. by rewrite IH. Qed.

Lemma length_tail (s : string) : String.length (Py.tail s) = String.length s - 1.
Proof. destruct s; simpl; lia. Qed.

Lemma lstrip_length_le (s chars : string) :
  (String.length (Py.lstrip s chars) ≤ String.length s)%nat.
Proof.
  induction s as [|c s IH]; simpl; [done|].
  destruct (Py.char_in c chars); simpl; lia.
Qed.

Lemma rstrip_length_le (s chars : string) :
  (String.length (Py.rstrip s chars) ≤ String.length s)%nat.
Proof.
  unfold Py.rstrip. rewrite length_rev.
  etrans; [apply lstrip_length_le|]. by rewrite length_rev.
Qed.

(** A match of a non-empty pattern at the front makes [lstrip] drop at
    least the first character. *)
Lemma lstrip_startswith_lt (s letters : string) :
  letters ≠ "" →
  Py.startswith s letters = true →
  (String.length (Py.lstrip s letters) < String.length s)%nat.
Proof.
  destruct letters as [|b letters]; [done|]. intros _.
  destruct s as [|a s]; simpl; [done|].
  intros [Hab%bool_decide_eq_true _]%andb_true_iff. subst b.
  rewrite bool_decide_eq_true_2 by done. simpl.
  pose proof (lstrip_length_le s (String a letters)). lia.
Qed.

(** ** One rule at a time *)

Section DecoderFacts.

Variable utils : Utils.

Lemma combo_sounds_loop_fires letters sounds all_sounds self self' :
  (letters, all_sounds) ∈ letter_combinations utils →
  sounds ⊆ all_sounds →
  combo_sounds_loop letters sounds self = Some self' →
  rule_fires utils self self'.
Proof.
  intros Hin. induction sounds as [|snd rest IH]; intros Hsub; simpl; [done|].
  destruct (Py.startswith (remaining_letters self) letters) eqn:Hstart; simpl.
  - case_bool_decide as Hsnd.
    + intros [= <-]. eapply fires_combo; eauto. apply Hsub. by left.
    + apply IH. intros x Hx. apply Hsub. by right.
  - apply IH. intros x Hx. apply Hsub. by right.
Qed.

Lemma combos_loop_fires items self self' :
  items ⊆ letter_combinations utils →
  combos_loop items self = Some self' →
  rule_fires utils self self'.
Proof.
  induction items as [|[letters sounds] rest IH]; intros Hsub; simpl; [done|].
  destruct (combo_sounds_loop letters sounds self) as [self1|] eqn:Hinner.
  - intros [= <-]. eapply combo_sounds_loop_fires; [| |exact Hinner].
    + apply Hsub. by left.
    + done.
  - apply IH. intros x Hx. apply Hsub. by right.
Qed.

(** The search of one category leaves the decoder alone or processes the
    letter with a sound that matches. *)
Lemma category_sounds_loop_cases this_letter indicator sounds self matched self' matched' :
  category_sounds_loop this_letter indicator sounds self matched = (self', matched') →
  (self' = self ∧ matched' = matched)
  ∨ (∃ snd, Py.slice_to (length snd) (remaining_sounds self) = snd
            ∧ self' = process_single_letter_sound this_letter snd indicator self
            ∧ matched' = true).
Proof.
  induction sounds as [|snd rest IH]; simpl.
  - intros [= <- <-]. by left.
  - case_bool_decide as Hsnd; [|done].
    intros [= <- <-]. right. by exists snd.
Qed.

Lemma categories_loop_cases this_letter categories self matched self' matched' :
  categories_loop this_letter categories self matched = (self', matched') →
  (self' = self ∧ matched' = matched)
  ∨ (∃ indicator sound_dict snd,
        (indicator, sound_dict) ∈ categories
        ∧ Py.slice_to (length snd) (remaining_sounds self) = snd
        ∧ self' = process_single_letter_sound this_letter snd indicator self
        ∧ matched' = true).
Proof.
  revert self matched.
  induction categories as [|[indicator sound_dict] rest IH]; intros self matched; simpl.
  - intros [= <- <-]. by left.
  - destruct (category_sounds_loop this_letter indicator
                (Py.get sound_dict this_letter) self matched)
      as [self1 matched1] eqn:Hinner.
    apply category_sounds_loop_cases in Hinner
      as [[-> ->] | (snd & Hsnd & -> & ->)].
    + destruct matched.
      * intros [= <- <-]. by left.
      * intros Hrest. apply IH in Hrest
          as [[-> ->] | (i & d & snd & Hin & Hsnd & -> & ->)]; [by left|].
        right. exists i, d, snd. split; [by right|done].
    + intros [= <- <-]. right. exists indicator, sound_dict, snd.
      split; [by left|done].
Qed.

(** Every iteration of the loop is one of the rules of [rule_fires], and
    none raises. *)
Lemma loop_body_fires self :
  remaining_letters self ≠ "" →
  ∃ self', loop_body utils self = Ok self' ∧ rule_fires utils self self'.
Proof.
  intros Hne. unfold loop_body.
  destruct (combos_loop (letter_combinations utils) self) as [self1|] eqn:Hcombo.
  { exists self1. split; [done|]. by eapply combos_loop_fires. }
  assert (loop_body utils self = single_letter utils self) as Hbody.
  { unfold loop_body. by rewrite Hcombo. }
  revert Hbody. unfold single_letter.
  destruct (remaining_letters self) as [|c rest] eqn:Hletters; [done|].
  destruct (Py.isalpha c) eqn:Halpha; cbn [negb].
  2:{ intros _. eexists. split; [done|]. by eapply fires_punctuation. }
  destruct (silent_e_applies utils (String c "") self) eqn:Hsilent.
  - assert (c = "e"%char) as ->.
    { unfold silent_e_applies in Hsilent.
      apply andb_true_iff in Hsilent as [_ He%bool_decide_eq_true]. by simplify_eq. }
    destruct (categories_loop "e" (SOUND_CATEGORIES utils)
                (process_single_letter_sound "e" [] SILENT_E self) true)
      as [self2 matched2] eqn:Hcats.
    apply categories_loop_cases in Hcats
      as [[-> ->] | (i & d & snd & Hin & Hsnd & -> & ->)]; cbn [negb]; intros _.
    + eexists. split; [done|]. by eapply fires_silent_e.
    + eexists. split; [done|]. by eapply fires_silent_e_then_category.
  - destruct (categories_loop (String c "") (SOUND_CATEGORIES utils) self false)
      as [self2 matched2] eqn:Hcats.
    apply categories_loop_cases in Hcats
      as [[-> ->] | (i & d & snd & Hin & Hsnd & -> & ->)]; cbn [negb]; intros Hbody.
    + eexists. split; [done|]. by eapply fires_undecodable.
    + eexists. split; [done|]. by eapply fires_category.
Qed.

(** *** What a rule does to the letters, the sounds and the indicators *)

Lemma SOUND_CATEGORIES_decodable indicator sound_dict :
  (indicator, sound_dict) ∈ SOUND_CATEGORIES utils → indicator ≠ UNDECODABLE.
Proof.
  unfold SOUND_CATEGORIES. intros Hin.
  repeat (apply elem_of_cons in Hin as [Hin|Hin]; [by simplify_eq|]).
  by apply elem_of_nil in Hin.
Qed.

Lemma process_single_letter_sound_sounds letter snd indicator self :
  Py.slice_to (length snd) (remaining_sounds self) = snd →
  concat (sound_parts (process_single_letter_sound letter snd indicator self))
    ++ remaining_sounds (process_single_letter_sound letter snd indicator self)
  = concat (sound_parts self) ++ remaining_sounds self.
Proof.
  unfold Py.slice_to. intros Hsnd. simpl.
  rewrite concat_app. simpl. rewrite app_nil_r, <- (assoc (++)).
  f_equal. destruct (remaining_sounds self) as [|p rest] eqn:Hrest.
  - rewrite take_nil in Hsnd. subst snd. done.
  - unfold Py.slice_from. rewrite <- Hsnd at 1. apply take_drop.
Qed.

Lemma process_single_letter_sound_letters letter snd indicator self :
  String.length (remaining_letters (process_single_letter_sound letter snd indicator self))
  = String.length (remaining_letters self) - 1.
Proof. simpl. apply length_tail. Qed.

(** Every rule keeps the phonemes: what the segments hold so far followed
    by what remains does not change. *)
Lemma rule_fires_sounds self self' :
  rule_fires utils self self' →
  concat (sound_parts self') ++ remaining_sounds self'
  = concat (sound_parts self) ++ remaining_sounds self.
Proof.
  destruct 1 as [letters sounds snd _ _ _ Hsnd | c rest _ _ | rest _ _
                | rest i d snd _ _ _ Hsnd | c rest i d snd _ _ Hsnd | c rest _ _].
  - simpl. rewrite concat_app. simpl. rewrite app_nil_r, <- (assoc (++)).
    f_equal. unfold Py.slice_to, Py.slice_from in *.
    rewrite <- Hsnd at 1. apply take_drop.
  - done.
  - by apply process_single_letter_sound_sounds.
  - rewrite process_single_letter_sound_sounds by done.
    by apply process_single_letter_sound_sounds.
  - by apply process_single_letter_sound_sounds.
  - simpl. rewrite concat_app. simpl. by rewrite !app_nil_r.
Qed.

(** Every rule strictly shortens the remaining letters, given that no
    letter combination of the table is the empty string. *)
Lemma rule_fires_shrinks self self' :
  Forall (λ entry, entry.1 ≠ "") (letter_combinations utils) →
  rule_fires utils self self' →
  (String.length (remaining_letters self') < String.length (remaining_letters self))%nat.
Proof.
  intros Hkeys.
  destruct 1 as [letters sounds snd Hin _ Hstart _ | c rest Hl _ | rest Hl _
                | rest i d snd Hl _ _ _ | c rest i d snd Hl _ _ | c rest Hl _].
  - simpl. apply lstrip_startswith_lt; [|done].
    rewrite Forall_forall in Hkeys. apply (Hkeys _ Hin).
  - simpl. rewrite Hl. simpl. lia.
  - rewrite process_single_letter_sound_letters, Hl. simpl. lia.
  - rewrite !process_single_letter_sound_letters, Hl. simpl. lia.
  - rewrite process_single_letter_sound_letters, Hl. simpl. lia.
  - simpl. rewrite Hl. simpl. lia.
Qed.

(** Every rule but the last keeps [all_decoded]; the last one is
    [handle_undecodable] on the state the iteration started from. *)
Lemma rule_fires_all_decoded self self' :
  rule_fires utils self self' →
  all_decoded self →
  all_decoded self' ∨ loop_body utils self = Ok (handle_undecodable self)
                      ∧ self' = handle_undecodable self.
Proof.
  intros Hfires [Hdec Hind].
  destruct Hfires as [letters sounds snd _ _ _ _ | c rest _ _ | rest _ _
                | rest i d snd _ _ Hi _ | c rest i d snd _ Hi _ | c rest _ Hbody].
  - left. split; [done|]. simpl. rewrite elem_of_app, list_elem_of_singleton.
    by intros [?|?].
  - by left.
  - left. split; [done|]. simpl. rewrite elem_of_app, list_elem_of_singleton.
    by intros [?|?].
  - left. split; [done|]. simpl.
    apply SOUND_CATEGORIES_decodable in Hi.
    rewrite !elem_of_app, !list_elem_of_singleton. by intros [[?|?]|?].
  - left. split; [done|]. simpl.
    apply SOUND_CATEGORIES_decodable in Hi.
    rewrite elem_of_app, list_elem_of_singleton. by intros [?|?].
  - by right.
Qed.

(** *** Affix stripping *)

Lemma affix_sounds_loop_cases is_prefix affix affix_letters letters_match
    sounds acc self acc' self' :
  affix_sounds_loop is_prefix affix affix_letters letters_match sounds acc self
    = (acc', self') →
  (acc' = acc ∧ self' = self)
  ∨ (∃ snd, affix_sounds_match is_prefix (word_phonemes self) snd = true
            ∧ strip_affix is_prefix affix affix_letters snd acc self = (acc', self')).
Proof.
  induction sounds as [|snd rest IH]; simpl.
  - intros [= <- <-]. by left.
  - destruct letters_match; simpl; [|done].
    destruct (affix_sounds_match is_prefix (word_phonemes self) snd) eqn:Hmatch; [|done].
    intros Hstrip. right. by exists snd.
Qed.

Lemma strip_affix_same_parts is_prefix affix affix_letters snd acc self acc' self' :
  strip_affix is_prefix affix affix_letters snd acc self = (acc', self') →
  same_parts self self'
  ∧ remaining_sounds self' = strip_sounds is_prefix (remaining_sounds self) snd
  ∧ String.length (remaining_letters self') ≤ String.length (remaining_letters self)
  ∧ affix_letter_parts acc' = affix_letter_parts acc ++ [affix]
  ∧ affix_sound_parts acc' = affix_sound_parts acc ++ [snd]
  ∧ affix_indicators acc' = affix_indicators acc ++ [LETTER_COMBO].
Proof.
  unfold strip_affix. intros [= <- <-]. simpl.
  split; [by repeat split|]. split; [done|]. split; [|done].
  destruct is_prefix; [apply lstrip_length_le | apply rstrip_length_le].
Qed.

(** What one call of [process_affixes] does: it appends one segment per
    table entry that matches on letters and phonemes, each tagged
    [LETTER_COMBO], removes the phonemes of each from the remaining ones,
    and touches nothing but the remaining letters and sounds. *)
Lemma affixes_loop_spec is_prefix items acc self acc' self' :
  affixes_loop is_prefix items acc self = (acc', self') →
  same_parts self self'
  ∧ String.length (remaining_letters self') ≤ String.length (remaining_letters self)
  ∧ ∃ new : list sound,
      affix_sound_parts acc' = affix_sound_parts acc ++ new
      ∧ affix_indicators acc' = affix_indicators acc ++ replicate (length new) LETTER_COMBO
      ∧ length (affix_letter_parts acc') = length (affix_letter_parts acc) + length new
      ∧ Forall (λ snd, affix_sounds_match is_prefix (word_phonemes self) snd = true) new
      ∧ remaining_sounds self' = foldl (strip_sounds is_prefix) (remaining_sounds self) new.
Proof.
  revert acc self.
  induction items as [|[affix affix_sounds] rest IH]; intros acc self; simpl.
  - intros [= <- <-]. split; [by repeat split|]. split; [done|].
    exists []. simpl. rewrite !app_nil_r. repeat split; [lia | constructor].
  - destruct (affix_sounds_loop is_prefix affix (Py.remove_char "-" affix)
                (affix_letters_match is_prefix (word self) (Py.remove_char "-" affix))
                affix_sounds acc self) as [acc1 self1] eqn:Hinner.
    intros Hrest.
    apply IH in Hrest as (Hsame & Hlen & new & Hsp & Hind & Hlp & Hall & Hrs).
    apply affix_sounds_loop_cases in Hinner as [[-> ->] | (snd & Hmatch & Hstrip)].
    { split; [done|]. split; [done|]. by exists new. }
    apply strip_affix_same_parts in Hstrip
      as (Hsame1 & Hrs1 & Hlen1 & Hlp1 & Hsp1 & Hind1).
    destruct Hsame as (?&Hwp&?&?&?&?), Hsame1 as (?&Hwp1&?&?&?&?).
    split; [repeat split; congruence|]. split; [lia|].
    exists (snd :: new). simpl.
    rewrite Hsp, Hsp1, Hind, Hind1, Hlp, Hlp1, Hrs, Hrs1, length_app,
      <- !(assoc (++)). simpl.
    split; [done|]. split; [done|]. split; [lia|]. split; [|done].
    constructor; [done|]. by rewrite <- Hwp1.
Qed.

(** *** The loop *)

Lemma while_loop_no_raise fuel self e :
  while_loop utils fuel self ≠ Some (Raise e).
Proof.
  revert self. induction fuel as [|fuel IH]; intros self; simpl.
  - by destruct (remaining_letters self).
  - destruct (remaining_letters self) as [|c rest] eqn:Hletters; [done|].
    destruct (loop_body_fires self) as (self' & -> & _); [by rewrite Hletters|].
    apply IH.
Qed.

Lemma while_loop_reaches fuel self self' :
  while_loop utils fuel self = Some (Ok self') →
  loop_reaches utils self self' ∧ remaining_letters self' = "".
Proof.
  revert self. induction fuel as [|fuel IH]; intros self; simpl.
  - destruct (remaining_letters self) eqn:Hletters; [|done].
    intros [= <-]. split; [constructor | done].
  - destruct (remaining_letters self) as [|c rest] eqn:Hletters.
    { intros [= <-]. split; [constructor | done]. }
    destruct (loop_body utils self) as [self1|] eqn:Hbody; [|done].
    intros [Hreach Hend]%IH. split; [|done].
    eapply reaches_next; [by rewrite Hletters | done | done].
Qed.

(** One unit of fuel per iteration: the loop ends within as many
    iterations as there are remaining letters. *)
Lemma while_loop_terminates fuel self :
  Forall (λ entry, entry.1 ≠ "") (letter_combinations utils) →
  String.length (remaining_letters self) ≤ fuel →
  ∃ self', while_loop utils fuel self = Some (Ok self').
Proof.
  intros Hkeys. revert self. induction fuel as [|fuel IH]; intros self Hfuel; simpl.
  - destruct (remaining_letters self); [by eexists | simpl in Hfuel; lia].
  - destruct (remaining_letters self) as [|c rest] eqn:Hletters; [by eexists|].
    destruct (loop_body_fires self) as (self' & -> & Hfires); [by rewrite Hletters|].
    apply IH. apply rule_fires_shrinks in Hfires; [|done].
    rewrite Hletters in Hfires. simpl in Hfires, Hfuel. lia.
Qed.

Lemma while_loop_more_fuel fuel fuel' self r :
  while_loop utils fuel self = Some r → fuel ≤ fuel' →
  while_loop utils fuel' self = Some r.
Proof.
  revert fuel' self. induction fuel as [|fuel IH]; intros fuel' self; simpl.
  - destruct (remaining_letters self) eqn:Hletters; [|done].
    intros [= <-] _. destruct fuel'; simpl; by rewrite Hletters.
  - destruct (remaining_letters self) as [|c rest] eqn:Hletters.
    { intros [= <-] _. destruct fuel'; simpl; by rewrite Hletters. }
    intros Hrun Hle. destruct fuel' as [|fuel']; [lia|]. simpl. rewrite Hletters.
    destruct (loop_body utils self) as [self1|]; [|done].
    apply IH; [done | lia].
Qed.

Lemma loop_reaches_sounds self self' :
  loop_reaches utils self self' →
  concat (sound_parts self') ++ remaining_sounds self'
  = concat (sound_parts self) ++ remaining_sounds self.
Proof.
  induction 1 as [self | self self1 self2 Hne Hbody _ IH]; [done|].
  rewrite IH. destruct (loop_body_fires self Hne) as (self1' & Hbody' & Hfires).
  rewrite Hbody in Hbody'. injection Hbody' as <-.
  by apply rule_fires_sounds.
Qed.

(** From a state that met no undecodable letter, the loop either stays so,
    or ends with [handle_undecodable] as the last thing it does. *)
Lemma loop_reaches_all_decoded self final :
  loop_reaches utils self final →
  all_decoded self →
  all_decoded final
  ∨ ∃ last, loop_reaches utils self last
            ∧ all_decoded last
            ∧ remaining_letters last ≠ ""
            ∧ loop_body utils last = Ok (handle_undecodable last)
            ∧ final = handle_undecodable last.
Proof.
  induction 1 as [self | self self1 self2 Hne Hbody Hrest IH]; intros Hclean;
    [by left|].
  destruct (loop_body_fires self Hne) as (self1' & Hbody' & Hfires).
  rewrite Hbody in Hbody'. injection Hbody' as <-.
  apply rule_fires_all_decoded in Hfires as [Hclean1 | [Hundec ->]]; [| |done].
  - destruct (IH Hclean1) as [?|(last & Hreach & ? & ? & ? & ?)]; [by left|].
    right. exists last. split; [|done]. by eapply reaches_next.
  - right. exists self. split; [constructor|].
    inversion Hrest as [|? ? ? Hne1]; subst; [done|]. by simpl in Hne1.
Qed.

Lemma combos_loop_appends items self self' :
  combos_loop items self = Some self' →
  ∃ letters snd,
    letter_parts self' = letter_parts self ++ [letters]
    ∧ sound_parts self' = sound_parts self ++ [snd]
    ∧ indicators self' = indicators self ++ [LETTER_COMBO].
Proof.
  induction items as [|[letters sounds] rest IH]; simpl; [done|].
  destruct (combo_sounds_loop letters sounds self) as [self1|] eqn:Hinner; [|done].
  intros [= <-]. clear IH. induction sounds as [|snd sounds IH]; simpl in Hinner; [done|].
  destruct (Py.startswith (remaining_letters self) letters
            && bool_decide (Py.slice_to (length snd) (remaining_sounds self) = snd));
    [|by apply IH].
  injection Hinner as <-. by exists letters, snd.
Qed.

(** ** The decoder as a whole *)

Lemma decode_stripped fuel self pre suf self2 :
  strip_affixes utils self = (pre, suf, self2) →
  decode utils fuel self =
    match while_loop utils fuel self2 with
    | None => None
    | Some (Raise e) => Some (Raise e)
    | Some (Ok self3) => Some (Ok (splice pre suf self3))
    end.
Proof.
  unfold decode, strip_affixes.
  destruct (process_affixes (prefixes utils) true self) as [pre' self1].
  destruct (process_affixes (suffixes utils) false self1) as [suf' self2'].
  by intros [= -> -> ->].
Qed.

(** The two affix passes together: they leave the segments of the decoder
    alone, do not lengthen the remaining letters, tag what they return with
    [LETTER_COMBO], return sounds that match the word's phonemes at the
    front, respectively at the back, and remove each from the remaining
    phonemes. *)
Lemma strip_affixes_spec self pre suf self2 :
  strip_affixes utils self = (pre, suf, self2) →
  same_parts self self2
  ∧ String.length (remaining_letters self2) ≤ String.length (remaining_letters self)
  ∧ affix_indicators pre = replicate (length (affix_sound_parts pre)) LETTER_COMBO
  ∧ affix_indicators suf = replicate (length (affix_sound_parts suf)) LETTER_COMBO
  ∧ Forall (λ snd, affix_sounds_match true (word_phonemes self) snd = true)
      (affix_sound_parts pre)
  ∧ Forall (λ snd, affix_sounds_match false (word_phonemes self) snd = true)
      (affix_sound_parts suf)
  ∧ remaining_sounds self2 =
      foldl (strip_sounds false)
        (foldl (strip_sounds true) (remaining_sounds self) (affix_sound_parts pre))
        (affix_sound_parts suf).
Proof.
  unfold strip_affixes.
  destruct (process_affixes (prefixes utils) true self) as [pre' self1] eqn:Hpre.
  destruct (process_affixes (suffixes utils) false self1) as [suf' self2'] eqn:Hsuf.
  intros [= -> -> ->].
  apply affixes_loop_spec in Hpre
    as (Hsame1 & Hlen1 & newp & Hsp1 & Hind1 & _ & Hall1 & Hrs1).
  apply affixes_loop_spec in Hsuf
    as (Hsame2 & Hlen2 & news & Hsp2 & Hind2 & _ & Hall2 & Hrs2).
  simpl in Hsp1, Hsp2, Hind1, Hind2. subst newp news.
  destruct Hsame1 as (?&Hwp1&?&?&?&?), Hsame2 as (?&Hwp2&?&?&?&?).
  split; [repeat split; congruence|]. split; [lia|].
  rewrite Hwp1 in Hall2. rewrite Hrs2, Hrs1. done.
Qed.

(** With at most one prefix and at most one suffix that do not overlap,
    what the two passes leave is the word's phonemes between the two. *)
Lemma strip_at_most_one (phonemes : list phoneme) (pre suf : list sound) :
  length pre ≤ 1 → length suf ≤ 1 →
  Forall (λ snd, affix_sounds_match true phonemes snd = true) pre →
  Forall (λ snd, affix_sounds_match false phonemes snd = true) suf →
  length (concat pre) + length (concat suf) ≤ length phonemes →
  concat pre
    ++ foldl (strip_sounds false) (foldl (strip_sounds true) phonemes pre) suf
    ++ concat suf
  = phonemes.
Proof.
  intros Hpre Hsuf Hallp Halls Hfit.
  assert (∃ n, n = length (concat pre)
               ∧ foldl (strip_sounds true) phonemes pre = drop n phonemes
               ∧ concat pre ++ drop n phonemes = phonemes) as (n & Hn & -> & Hfront).
  { destruct pre as [|p [|? ?]]; simpl in *; [by exists 0 | | lia].
    exists (length p). rewrite app_nil_r. split; [done|]. split; [done|].
    apply Forall_cons_1 in Hallp as [Hp%bool_decide_eq_true _].
    unfold Py.slice_to in Hp. rewrite <- Hp at 1. apply take_drop. }
  rewrite <- Hfront at 2. f_equal. rewrite <- Hn in Hfit. clear Hfront Hn Hallp Hpre.
  destruct suf as [|s [|? ?]]; simpl in *; [by rewrite app_nil_r | | lia].
  rewrite app_nil_r in *.
  apply Forall_cons_1 in Halls as [Hs%bool_decide_eq_true _].
  unfold strip_sounds, Py.slice_to_neg, Py.slice_from_neg in *.
  destruct (length s) as [|m] eqn:Hm.
  - apply nil_length_inv in Hm. subst s phonemes. by rewrite drop_nil.
  - rewrite length_drop.
    assert (drop (length phonemes - S m) phonemes
            = drop (length phonemes - n - S m) (drop n phonemes)) as Hdrop.
    { rewrite drop_drop. f_equal. lia. }
    rewrite <- Hs, Hdrop. apply take_drop.
Qed.

Lemma WordDecoder_init_known fuel w phonemes :
  simplified_cmudict utils !! Py.lower w = Some phonemes →
  WordDecoder_init utils fuel w = decode utils fuel (fresh (Py.lower w) phonemes).
Proof. unfold WordDecoder_init. cbv zeta. by intros ->. Qed.

Lemma WordDecoder_init_ok_inv fuel w d :
  WordDecoder_init utils fuel w = Some (Ok d) →
  ∃ phonemes pre suf start final,
    simplified_cmudict utils !! Py.lower w = Some phonemes
    ∧ strip_affixes utils (fresh (Py.lower w) phonemes) = (pre, suf, start)
    ∧ while_loop utils fuel start = Some (Ok final)
    ∧ d = splice pre suf final.
Proof.
  destruct (simplified_cmudict utils !! Py.lower w) as [phonemes|] eqn:Hw.
  2:{ unfold WordDecoder_init. cbv zeta. by rewrite Hw. }
  rewrite (WordDecoder_init_known _ _ _ Hw).
  destruct (strip_affixes utils (fresh (Py.lower w) phonemes))
    as [[pre suf] start] eqn:Hstrip.
  rewrite (decode_stripped _ _ _ _ _ Hstrip).
  destruct (while_loop utils fuel start) as [[final|e]|] eqn:Hloop; [|done..].
  intros [= <-]. by exists phonemes, pre, suf, start, final.
Qed.

Lemma filter_undecodable_nil (l : list Indicator) :
  UNDECODABLE ∉ l → filter (λ indicator, indicator = UNDECODABLE) l = [].
Proof.
  induction l as [|i l IH]; [done|].
  rewrite not_elem_of_cons. intros [Hne Hl].
  rewrite filter_cons_False by done. by apply IH.
Qed.

Lemma replicate_letter_combo_decodable n :
  UNDECODABLE ∉ replicate n LETTER_COMBO.
Proof. by intros [? _]%elem_of_replicate. Qed.

(** C7: a decoded word holds at most one [UNDECODABLE] segment, and holds
    one exactly when [decodable] is false.  Then the rule fired in a state
    [last] of the loop that had met no undecodable letter, the segment is
    the last one of the body, with all letters remaining in [last] as its
    letter part and all phonemes remaining in [last] as its sound part,
    nothing remains afterwards, and only the suffix segments, none of them
    [UNDECODABLE], come after it. *)
Theorem undecodable_segment_is_last (w : string) (fuel : nat) (d : WordDecoder) :
  WordDecoder_init utils fuel w = Some (Ok d) →
  length (filter (λ indicator, indicator = UNDECODABLE) (indicators d)) ≤ 1
  ∧ (decodable d = false ↔ UNDECODABLE ∈ indicators d)
  ∧ (decodable d = false →
     ∃ phonemes pre suf start last,
       simplified_cmudict utils !! Py.lower w = Some phonemes
       ∧ strip_affixes utils (fresh (Py.lower w) phonemes) = (pre, suf, start)
       ∧ loop_reaches utils start last
       ∧ (UNDECODABLE ∉ indicators last)
       ∧ loop_body utils last = Ok (handle_undecodable last)
       ∧ letter_parts d =
           affix_letter_parts pre
             ++ (letter_parts last ++ [remaining_letters last])
             ++ affix_letter_parts suf
       ∧ sound_parts d =
           affix_sound_parts pre
             ++ (sound_parts last ++ [remaining_sounds last])
             ++ affix_sound_parts suf
       ∧ indicators d =
           affix_indicators pre
             ++ (indicators last ++ [UNDECODABLE])
             ++ affix_indicators suf
       ∧ (UNDECODABLE ∉ affix_indicators pre)
       ∧ (UNDECODABLE ∉ affix_indicators suf)
       ∧ remaining_letters d = ""
       ∧ remaining_sounds d = []).
Proof.
  intros (phonemes & pre & suf & start & final & Hw & Hstrip & Hloop & ->)
    %WordDecoder_init_ok_inv.
  pose proof (strip_affixes_spec _ _ _ _ Hstrip)
    as ((_ & _ & _ & _ & Hind & Hdec) & _ & Hpre & Hsuf & _).
  simpl in Hind, Hdec.
  assert (UNDECODABLE ∉ affix_indicators pre) as Hpre'.
  { rewrite Hpre. apply replicate_letter_combo_decodable. }
  assert (UNDECODABLE ∉ affix_indicators suf) as Hsuf'.
  { rewrite Hsuf. apply replicate_letter_combo_decodable. }
  apply while_loop_reaches in Hloop as [Hreach _].
  apply loop_reaches_all_decoded in Hreach
    as [[Hd Hi] | (last & Hreach & [_ Hi] & _ & Hbody & ->)];
    [| |by split; [|rewrite Hind; apply not_elem_of_nil]].
  - simpl. rewrite !filter_app, !filter_undecodable_nil by done. simpl.
    split; [lia|]. rewrite Hd, !elem_of_app. split; [split; [done|]|done].
    by intros [?|[?|?]].
  - simpl. rewrite !filter_app, filter_cons_True by done.
    rewrite (filter_undecodable_nil (affix_indicators pre)),
      (filter_undecodable_nil (indicators last)),
      (filter_undecodable_nil (affix_indicators suf)) by done. simpl.
    split; [lia|]. split.
    { split; [|done]. intros _. rewrite !elem_of_app, list_elem_of_singleton.
      right. left. by right. }
    intros _. by exists phonemes, pre, suf, start, last.
Qed.

(** C4, amended: in a decoded word the sound parts are the prefix sounds,
    the body sounds and the suffix sounds, and the body sounds followed by
    the phonemes still unconsumed when the letters ran out are the phonemes
    that affix stripping left.  When [decodable] is false nothing is left
    unconsumed: the undecodable segment took all remaining phonemes.  When
    at most one prefix and at most one suffix matched and their sounds do
    not overlap, prefix, body, unconsumed and suffix sounds together are the
    word's phoneme sequence, so the concatenation of the sound parts is this
    sequence exactly when no phoneme is left unconsumed, as is the case
    when [decodable] is false. *)
Theorem decode_sounds_roundtrip (w : string) (fuel : nat) (phonemes : list phoneme)
    (pre suf : affix_parts) (start d : WordDecoder) :
  simplified_cmudict utils !! Py.lower w = Some phonemes →
  strip_affixes utils (fresh (Py.lower w) phonemes) = (pre, suf, start) →
  WordDecoder_init utils fuel w = Some (Ok d) →
  ∃ body : list sound,
    sound_parts d = affix_sound_parts pre ++ body ++ affix_sound_parts suf
    ∧ concat body ++ remaining_sounds d = remaining_sounds start
    ∧ (decodable d = false → remaining_sounds d = [])
    ∧ (length (affix_sound_parts pre) ≤ 1 →
       length (affix_sound_parts suf) ≤ 1 →
       length (concat (affix_sound_parts pre))
         + length (concat (affix_sound_parts suf)) ≤ length phonemes →
       concat (affix_sound_parts pre)
         ++ (concat body ++ remaining_sounds d)
         ++ concat (affix_sound_parts suf) = phonemes
       ∧ (concat (sound_parts d) = phonemes ↔ remaining_sounds d = [])
       ∧ (decodable d = false → concat (sound_parts d) = phonemes)).
Proof.
  intros Hw Hstrip
    (phonemes' & pre' & suf' & start' & final & Hw' & Hstrip' & Hloop & ->)
    %WordDecoder_init_ok_inv.
  rewrite Hw in Hw'. injection Hw' as <-.
  rewrite Hstrip in Hstrip'. injection Hstrip' as <- <- <-.
  pose proof (strip_affixes_spec _ _ _ _ Hstrip)
    as ((_ & _ & _ & Hsp & Hind & Hdec) & _ & _ & _ & Hallp & Halls & Hrs).
  simpl in Hsp, Hind, Hdec, Hallp, Halls, Hrs.
  apply while_loop_reaches in Hloop as [Hreach _].
  pose proof (loop_reaches_sounds _ _ Hreach) as Hsounds.
  rewrite Hsp in Hsounds. simpl in Hsounds.
  assert (decodable final = false → remaining_sounds final = []) as Hundec.
  { intros Hfalse. apply loop_reaches_all_decoded in Hreach
      as [[Hd _] | (last & _ & _ & _ & _ & ->)]; [congruence|done|].
    split; [done|]. rewrite Hind. apply not_elem_of_nil. }
  exists (sound_parts final). simpl.
  split; [done|]. split; [done|]. split; [done|].
  intros Hpre Hsuf Hfit.
  pose proof (strip_at_most_one _ _ _ Hpre Hsuf Hallp Halls Hfit) as Hall.
  rewrite <- Hrs, <- Hsounds in Hall.
  assert (concat (affix_sound_parts pre ++ sound_parts final ++ affix_sound_parts suf)
          = phonemes ↔ remaining_sounds final = []) as Hiff.
  { rewrite !concat_app. split.
    - intros Heq. apply nil_length_inv.
      apply (f_equal length) in Hall, Heq.
      repeat rewrite length_app in Hall. repeat rewrite length_app in Heq. lia.
    - intros Hnil. by rewrite Hnil, app_nil_r in Hall. }
  split; [done|]. split; [done|].
  intros Hfalse. apply Hiff. by apply Hundec.
Qed.

(** C8: a word whose lowercase form has no entry in the pronunciation
    dictionary makes the constructor raise "Word not found", whatever the
    fuel, so no decoder and no decoding is produced; for a word that has an
    entry the constructor raises nothing. *)
Theorem WordDecoder_init_unknown_word (w : string) (fuel : nat) :
  (simplified_cmudict utils !! Py.lower w = None →
   WordDecoder_init utils fuel w = Some (Raise WordNotFound))
  ∧ (is_Some (simplified_cmudict utils !! Py.lower w) →
     ∀ e, WordDecoder_init utils fuel w ≠ Some (Raise e)).
Proof.
  split.
  - unfold WordDecoder_init. cbv zeta. by intros ->.
  - intros [phonemes Hw] e. rewrite (WordDecoder_init_known _ _ _ Hw).
    destruct (strip_affixes utils (fresh (Py.lower w) phonemes))
      as [[pre suf] self2] eqn:Hstrip.
    rewrite (decode_stripped _ _ _ _ _ Hstrip).
    destruct (while_loop utils fuel self2) as [[self3|e']|] eqn:Hloop; [done| |done].
    by apply while_loop_no_raise in Hloop.
Qed.

(** C9: for a word of the dictionary, every iteration of the loop of
    [decode] strictly shortens the remaining letters, the undecodable rule
    empties them, and the constructor returns a decoder with any fuel from
    the letter count of the word on: the loop runs at most that many
    iterations.  The table of letter combinations is taken to hold no empty
    string as a key. *)
Theorem decode_terminates (w : string) (phonemes : list phoneme) :
  Forall (λ entry, entry.1 ≠ "") (letter_combinations utils) →
  simplified_cmudict utils !! Py.lower w = Some phonemes →
  (∀ self, remaining_letters self ≠ "" →
     ∃ self', loop_body utils self = Ok self'
              ∧ String.length (remaining_letters self')
                < String.length (remaining_letters self))
  ∧ (∀ self, remaining_letters (handle_undecodable self) = "")
  ∧ ∃ d, ∀ fuel, String.length w ≤ fuel →
           WordDecoder_init utils fuel w = Some (Ok d).
Proof.
  intros Hkeys Hw. split; [|split; [done|]].
  - intros self Hne. destruct (loop_body_fires self Hne) as (self' & Hbody & Hfires).
    exists self'. split; [done|]. by apply rule_fires_shrinks.
  - destruct (strip_affixes utils (fresh (Py.lower w) phonemes))
      as [[pre suf] self2] eqn:Hstrip.
    pose proof (strip_affixes_spec _ _ _ _ Hstrip) as (_ & Hlen & _).
    simpl in Hlen. rewrite length_lower in Hlen.
    destruct (while_loop_terminates (String.length w) self2 Hkeys) as [self3 Hloop];
      [lia|].
    exists (splice pre suf self3). intros fuel Hfuel.
    rewrite (WordDecoder_init_known _ _ _ Hw), (decode_stripped _ _ _ _ _ Hstrip).
    by rewrite (while_loop_more_fuel _ _ _ _ Hloop Hfuel).
Qed.

(** C10: every segment [process_affixes] returns, for prefixes and for
    suffixes, carries the indicator [LETTER_COMBO], one per letter part and
    per sound part; [Indicator] has these seven values and none for
    affixes; and a letter combination found in the body is appended with
    [LETTER_COMBO] too, so the indicator does not tell the two apart. *)
Theorem affix_segments_are_letter_combo (affixes_dict : table) (is_prefix : bool)
    (self : WordDecoder) :
  Forall (λ indicator, indicator = LETTER_COMBO)
    (affix_indicators (process_affixes affixes_dict is_prefix self).1)
  ∧ length (affix_indicators (process_affixes affixes_dict is_prefix self).1)
    = length (affix_letter_parts (process_affixes affixes_dict is_prefix self).1)
  ∧ length (affix_indicators (process_affixes affixes_dict is_prefix self).1)
    = length (affix_sound_parts (process_affixes affixes_dict is_prefix self).1)
  ∧ (∀ indicator : Indicator,
       indicator ∈ [SHORT_VOWEL; LONG_VOWEL; HARD_CONSONANT; SOFT_CONSONANT;
                    LETTER_COMBO; SILENT_E; UNDECODABLE])
  ∧ (∀ items before after,
       combos_loop items before = Some after →
       ∃ letters snd,
         letter_parts after = letter_parts before ++ [letters]
         ∧ sound_parts after = sound_parts before ++ [snd]
         ∧ indicators after = indicators before ++ [LETTER_COMBO]).
Proof.
  destruct (process_affixes affixes_dict is_prefix self) as [parts self'] eqn:Hrun.
  apply affixes_loop_spec in Hrun as (_ & _ & new & Hsp & Hind & Hlp & _ & _).
  simpl in *. rewrite Hind, Hsp, Hlp. simpl.
  rewrite length_replicate.
  split; [by apply Forall_replicate|]. split; [done|]. split; [done|].
  split; [|apply combos_loop_appends].
  intros []; set_solver.
Qed.

End DecoderFacts.

(** ** The example words *)

Module ExampleFacts.

Import Examples.

Example decode_cake :
  WordDecoder_init rules 4 "cake"
  = Some (Ok {| word := "cake";
                word_phonemes := ["K"; "EY"; "K"];
                remaining_letters := "";
                remaining_sounds := [];
                letter_parts := ["c"; "a"; "k"; "e"];
                sound_parts := [["K"]; ["EY"]; ["K"]; []];
                indicators := [HARD_CONSONANT; LONG_VOWEL; HARD_CONSONANT; SILENT_E];
                decodable := true |}).
Proof. vm_compute. reflexivity. Qed.

Example decode_wont :
  letter_parts wont_decoded = ["w"; "o"; "n"; "t"]
  ∧ sound_parts wont_decoded = [["W"]; ["OW"]; ["N"]; ["T"]]
  ∧ decodable wont_decoded = true.
Proof. vm_compute. done. Qed.

Example decode_boat :
  letter_parts boat_decoded = ["b"; "o"; "at"]
  ∧ sound_parts boat_decoded = [["B"]; ["OW"]; ["T"]]
  ∧ indicators boat_decoded = [HARD_CONSONANT; LONG_VOWEL; UNDECODABLE]
  ∧ decodable boat_decoded = false.
Proof. vm_compute. done. Qed.

Example decode_needs_fuel : WordDecoder_init rules 3 "cake" = None.
Proof. vm_compute. reflexivity. Qed.

Example is_vc_at :
  is_vc rules as_written "at" None false = Raise (NameError "is_vowel_sound").
Proof. vm_compute. reflexivity. Qed.

Example is_vc_unknown :
  is_vc rules as_written "zzz" None false = Raise (KeyError "zzz").
Proof. vm_compute. reflexivity. Qed.

(** The statements after the first test, which the module as written never
    reaches: were the three names bound to the functions they stand for,
    "at" would be accepted and "air" would raise on its second vowel
    letter. *)
Example is_vc_with_the_names_bound :
  is_vc rules (bound phonics) "at" None false = Ok true
  ∧ is_vc rules (bound phonics) "air" None false = Raise (MoreThanOneVowel "air")
  ∧ is_cvc rules (bound phonics) "cat" None false = is_vc rules (bound phonics) "cat" None false.
Proof. vm_compute. done. Qed.

End ExampleFacts.

(** ** The claims on concrete words *)

(** C1, on the code: "tests" decodes to the letter parts "t", "e", "st".
    After "t" and "e" the letter combination "st" matches the remaining
    "sts", and [lstrip] then drops every leading "s" and "t", the last "s"
    included; the parts spell "test", the word has no character that is not
    a letter, and [decodable] stays true. *)
Theorem decode_tests_loses_a_letter :
  WordDecoder_init Examples.rules 5 "tests" = Some (Ok Examples.tests_decoded)
  ∧ letter_parts Examples.tests_decoded = ["t"; "e"; "st"]
  ∧ Py.join (letter_parts Examples.tests_decoded) = "test"
  ∧ Py.join (letter_parts Examples.tests_decoded) ≠ Py.lower "tests"
  ∧ any_letter (λ c, negb (Py.isalpha c)) (Py.lower "tests") = false
  ∧ decodable Examples.tests_decoded = true.
Proof. vm_compute. repeat split; done. Qed.

(** C2, on the code: for "internal" the prefix entries "in-" and "inter-"
    both match on letters and phonemes, and [process_affixes] strips both:
    two prefix segments, six phonemes removed from the front, and the
    remaining letters stripped twice. *)
Theorem process_affixes_strips_two_prefixes :
  let self := fresh "internal" ["IH"; "N"; "T"; "ER"; "N"; "AH"; "L"] in
  let '(parts, self') := process_affixes (prefixes Examples.rules) true self in
  affix_letter_parts parts = ["in-"; "inter-"]
  ∧ affix_sound_parts parts = [["IH"; "N"]; ["IH"; "N"; "T"; "ER"]]
  ∧ remaining_letters self' = "al"
  ∧ remaining_sounds self' = ["L"].
Proof. vm_compute. repeat split; done. Qed.

(** C4 as stated fails: "x" is pronounced K S, the hard consonant "x"
    takes K, the letters run out, [decodable] is true and the sound parts
    hold K only. *)
Lemma decode_x_drops_a_phoneme :
  simplified_cmudict Examples.rules !! Py.lower "x" = Some ["K"; "S"]
  ∧ WordDecoder_init Examples.rules 1 "x" = Some (Ok Examples.x_decoded)
  ∧ decodable Examples.x_decoded = true
  ∧ concat (sound_parts Examples.x_decoded) ≠ ["K"; "S"].
Proof. vm_compute. repeat split; done. Qed.

Lemma decode_sounds_roundtrip_unfit :
  simplified_cmudict Examples.rules !! Py.lower "unfit" = Some Examples.unfit_phonemes
  ∧ strip_affixes Examples.rules (fresh (Py.lower "unfit") Examples.unfit_phonemes)
    = Examples.unfit_stripped
  ∧ WordDecoder_init Examples.rules 5 "unfit" = Some (Ok Examples.unfit_decoded)
  ∧ concat (sound_parts Examples.unfit_decoded) = Examples.unfit_phonemes.
Proof.
  assert (simplified_cmudict Examples.rules !! Py.lower "unfit"
          = Some Examples.unfit_phonemes) as Hw by (vm_compute; reflexivity).
  assert (strip_affixes Examples.rules
            (fresh (Py.lower "unfit") Examples.unfit_phonemes)
          = (Examples.unfit_stripped.1.1, Examples.unfit_stripped.1.2,
             Examples.unfit_stripped.2)) as Hstrip by (vm_compute; reflexivity).
  assert (WordDecoder_init Examples.rules 5 "unfit"
          = Some (Ok Examples.unfit_decoded)) as Hd by (vm_compute; reflexivity).
  split; [exact Hw|]. split; [vm_compute; reflexivity|]. split; [exact Hd|].
  destruct (decode_sounds_roundtrip Examples.rules "unfit" 5 _ _ _ _ _ Hw Hstrip Hd)
    as (body & _ & _ & _ & Hfit).
  destruct Hfit as (_ & Hiff & _); [vm_compute; lia ..|].
  apply Hiff. vm_compute. reflexivity.
Defined.

(** C5, on the code: "at" is pronounced AE T, a short vowel sound and then
    a consonant sound, and one letter follows the first, so the word has
    the VC shape as specified; [is_vc], and [is_cvc] with it, raises
    [NameError] at its first test, where the unbound name [is_vowel_sound]
    is called, instead of returning true.  The same happens to every word
    of two phonemes, so as the module is written [is_vc] returns true for
    no word, whatever the dictionary and the options. *)
Theorem is_vc_at_raises_name_error :
  simplified_cmudict Examples.rules !! "at" = Some ["AE"; "T"]
  ∧ vc_as_specified Examples.rules Examples.phonics "at" (blends_or_default None) false
  ∧ is_vc Examples.rules as_written "at" None false
    = Raise (NameError "is_vowel_sound")
  ∧ is_cvc Examples.rules as_written "at" None false
    = Raise (NameError "is_vowel_sound")
  ∧ ∀ (utils : Utils) (w : string) (allowed : option (list string))
      (include_long_vowels : bool),
      is_vc utils as_written w allowed include_long_vowels ≠ Ok true.
Proof.
  split; [vm_compute; reflexivity|]. split; [|split; [by vm_compute|]].
  - split; [|split].
    + exists "AE"%string, "T"%string. vm_compute. done.
    + right. vm_compute. reflexivity.
    + left. reflexivity.
  - split; [by vm_compute|].
    intros utils w allowed include_long_vowels. rewrite is_vc_as_written.
    destruct (simplified_cmudict utils !! w) as [sounds|]; [|done].
    by destruct (length sounds =? 2)%nat.
Qed.

(** C6 as stated fails: in "boat" the vowel letters "o" and "a" follow the
    first letter, and [is_vc] and [is_cvc] return false, since the word has
    three phonemes. *)
Lemma is_vc_boat_returns_false :
  simplified_cmudict Examples.rules !! "boat" = Some ["B"; "OW"; "T"]
  ∧ any_letter (vowel_letter Examples.phonics) (Py.tail "boat") = true
  ∧ is_vc Examples.rules as_written "boat" None false = Ok false
  ∧ is_cvc Examples.rules as_written "boat" None false = Ok false.
Proof. vm_compute. repeat split; done. Qed.

Lemma is_vc_false_before_the_letters_boat :
  simplified_cmudict Examples.rules !! "boat" = Some ["B"; "OW"; "T"]
  ∧ length ["B"; "OW"; "T"] ≠ 2
  ∧ is_vc Examples.rules as_written "boat" None false = Ok false
  ∧ is_cvc Examples.rules as_written "boat" None false = Ok false.
Proof.
  assert (simplified_cmudict Examples.rules !! "boat" = Some ["B"; "OW"; "T"])
    as Hw by (vm_compute; reflexivity).
  assert (length ["B"; "OW"; "T"] ≠ 2) as Hlen by (simpl; lia).
  split; [exact Hw|]. split; [exact Hlen|].
  exact (proj1 (is_vc_false_before_the_letters Examples.rules as_written
                  "boat" ["B"; "OW"; "T"] None false Hw) Hlen).
Defined.

Lemma undecodable_segment_is_last_boat :
  WordDecoder_init Examples.rules 4 "boat" = Some (Ok Examples.boat_decoded)
  ∧ length (filter (λ indicator, indicator = UNDECODABLE)
              (indicators Examples.boat_decoded)) ≤ 1
  ∧ (decodable Examples.boat_decoded = false
     ↔ UNDECODABLE ∈ indicators Examples.boat_decoded).
Proof.
  assert (WordDecoder_init Examples.rules 4 "boat" = Some (Ok Examples.boat_decoded))
    as Hd by (vm_compute; reflexivity).
  split; [exact Hd|].
  destruct (undecodable_segment_is_last Examples.rules "boat" 4 _ Hd)
    as (Hone & Hiff & _).
  split; [exact Hone | exact Hiff].
Defined.

Lemma WordDecoder_init_unknown_word_zzz :
  simplified_cmudict Examples.rules !! Py.lower "Zzz" = None
  ∧ WordDecoder_init Examples.rules 3 "Zzz" = Some (Raise WordNotFound)
  ∧ is_Some (simplified_cmudict Examples.rules !! Py.lower "Cake")
  ∧ ∀ e, WordDecoder_init Examples.rules 4 "Cake" ≠ Some (Raise e).
Proof.
  assert (simplified_cmudict Examples.rules !! Py.lower "Zzz" = None)
    as Hno by (vm_compute; reflexivity).
  assert (is_Some (simplified_cmudict Examples.rules !! Py.lower "Cake"))
    as Hyes by (vm_compute; eexists; reflexivity).
  split; [exact Hno|].
  split; [exact (proj1 (WordDecoder_init_unknown_word Examples.rules "Zzz" 3) Hno)|].
  split; [exact Hyes|].
  exact (proj2 (WordDecoder_init_unknown_word Examples.rules "Cake" 4) Hyes).
Defined.

Lemma decode_terminates_wont :
  Forall (λ entry, entry.1 ≠ "") (letter_combinations Examples.rules)
  ∧ simplified_cmudict Examples.rules !! Py.lower "Won't" = Some ["W"; "OW"; "N"; "T"]
  ∧ ∃ d, ∀ fuel, String.length "Won't" ≤ fuel →
           WordDecoder_init Examples.rules fuel "Won't" = Some (Ok d).
Proof.
  assert (Forall (λ entry, entry.1 ≠ "") (letter_combinations Examples.rules))
    as Hkeys by (repeat constructor; discriminate).
  assert (simplified_cmudict Examples.rules !! Py.lower "Won't"
          = Some ["W"; "OW"; "N"; "T"]) as Hw by (vm_compute; reflexivity).
  split; [exact Hkeys|]. split; [exact Hw|].
  exact (proj2 (proj2 (decode_terminates Examples.rules "Won't" _ Hkeys Hw))).
Defined.

(** * Further properties of the decoder *)

Section StepFacts.

Variable utils : Utils.

Lemma combo_sounds_loop_Some letters sounds self self' :
  combo_sounds_loop letters sounds self = Some self' →
  ∃ snd, snd ∈ sounds
    ∧ Py.startswith (remaining_letters self) letters = true
    ∧ Py.slice_to (length snd) (remaining_sounds self) = snd
    ∧ self' = set_remaining (append_part self letters snd LETTER_COMBO)
                (Py.lstrip (remaining_letters self) letters)
                (Py.slice_from (length snd) (remaining_sounds self)).
Proof.
  induction sounds as [|snd rest IH]; simpl; [done|].
  destruct (Py.startswith (remaining_letters self) letters) eqn:Hstart; simpl.
  - case_bool_decide as Hsnd.
    + intros [= <-]. exists snd. split; [by left|done].
    + intros (snd' & Hin & ?)%IH. exists snd'. split; [by right|done].
  - intros (snd' & Hin & ?)%IH. exists snd'. split; [by right|done].
Qed.

Lemma combos_loop_Some items self self' :
  combos_loop items self = Some self' →
  ∃ letters sounds snd,
    (letters, sounds) ∈ items
    ∧ snd ∈ sounds
    ∧ Py.startswith (remaining_letters self) letters = true
    ∧ Py.slice_to (length snd) (remaining_sounds self) = snd
    ∧ self' = set_remaining (append_part self letters snd LETTER_COMBO)
                (Py.lstrip (remaining_letters self) letters)
                (Py.slice_from (length snd) (remaining_sounds self)).
Proof.
  induction items as [|[letters sounds] rest IH]; simpl; [done|].
  destruct (combo_sounds_loop letters sounds self) as [self1|] eqn:Hinner.
  - intros [= <-]. apply combo_sounds_loop_Some in Hinner as (snd & ? & ?).
    exists letters, sounds, snd. split; [by left|done].
  - intros (l & ss & snd & Hin & ?)%IH. exists l, ss, snd. split; [by right|done].
Qed.

Lemma combo_sounds_loop_None letters sounds self snd :
  combo_sounds_loop letters sounds self = None →
  snd ∈ sounds →
  Py.startswith (remaining_letters self) letters = true →
  Py.slice_to (length snd) (remaining_sounds self) ≠ snd.
Proof.
  induction sounds as [|snd' rest IH]; simpl; [by intros _ ?%elem_of_nil|].
  intros Hnone Hin Hstart. rewrite Hstart in Hnone. simpl in Hnone.
  case_bool_decide as Hsnd; [done|].
  apply elem_of_cons in Hin as [->|Hin]; [done|]. by apply IH.
Qed.

Lemma combos_loop_None items self letters sounds snd :
  combos_loop items self = None →
  (letters, sounds) ∈ items →
  snd ∈ sounds →
  Py.startswith (remaining_letters self) letters = true →
  Py.slice_to (length snd) (remaining_sounds self) ≠ snd.
Proof.
  induction items as [|[letters' sounds'] rest IH]; simpl; [by intros _ ?%elem_of_nil|].
  destruct (combo_sounds_loop letters' sounds' self) eqn:Hinner; [done|].
  intros Hnone Hin. apply elem_of_cons in Hin as [[= -> ->]|Hin].
  - by apply combo_sounds_loop_None.
  - by apply IH.
Qed.

(** The search of one category: the first listed sound that matches the
    remaining phonemes, or none at all. *)
Lemma category_sounds_loop_inv this_letter indicator sounds self matched self' matched' :
  category_sounds_loop this_letter indicator sounds self matched = (self', matched') →
  (self' = self ∧ matched' = matched
   ∧ ∀ snd, snd ∈ sounds → Py.slice_to (length snd) (remaining_sounds self) ≠ snd)
  ∨ (∃ snd, snd ∈ sounds
            ∧ Py.slice_to (length snd) (remaining_sounds self) = snd
            ∧ self' = process_single_letter_sound this_letter snd indicator self
            ∧ matched' = true).
Proof.
  induction sounds as [|snd rest IH]; simpl.
  - intros [= <- <-]. left. split; [done|]. split; [done|]. by intros ? ?%elem_of_nil.
  - case_bool_decide as Hsnd.
    + intros [= <- <-]. right. exists snd. split; [by left|done].
    + intros [(-> & -> & Hno) | (snd' & Hin & ?)]%IH.
      * left. split; [done|]. split; [done|].
        intros snd' [->|?]%elem_of_cons; [done|by apply Hno].
      * right. exists snd'. split; [by right|done].
Qed.

Lemma categories_loop_inv this_letter categories self self' matched' :
  categories_loop this_letter categories self false = (self', matched') →
  (self' = self ∧ matched' = false
   ∧ ∀ indicator sound_dict snd,
       (indicator, sound_dict) ∈ categories →
       snd ∈ Py.get sound_dict this_letter →
       Py.slice_to (length snd) (remaining_sounds self) ≠ snd)
  ∨ (∃ indicator sound_dict snd,
        (indicator, sound_dict) ∈ categories
        ∧ snd ∈ Py.get sound_dict this_letter
        ∧ Py.slice_to (length snd) (remaining_sounds self) = snd
        ∧ self' = process_single_letter_sound this_letter snd indicator self
        ∧ matched' = true).
Proof.
  induction categories as [|[indicator sound_dict] rest IH]; simpl.
  - intros [= <- <-]. left. split; [done|]. split; [done|].
    by intros ? ? ? ?%elem_of_nil.
  - destruct (category_sounds_loop this_letter indicator
                (Py.get sound_dict this_letter) self false)
      as [self1 matched1] eqn:Hinner.
    apply category_sounds_loop_inv in Hinner
      as [(-> & -> & Hno) | (snd & Hin & Hsnd & -> & ->)].
    + intros [(-> & -> & Hno') | (i & d & snd & Hin & ?)]%IH.
      * left. split; [done|]. split; [done|].
        intros i d snd [[= -> ->]|?]%elem_of_cons; [by apply Hno|by eapply Hno'].
      * right. exists i, d, snd. split; [by right|done].
    + intros [= <- <-]. right. exists indicator, sound_dict, snd.
      split; [by left|done].
Qed.

Lemma silent_e_keeps_sounds self :
  remaining_sounds (process_single_letter_sound "e" [] SILENT_E self)
  = remaining_sounds self.
Proof. simpl. by destruct (remaining_sounds self). Qed.

(** Every iteration of the loop is one step of [decode_step]. *)
Lemma loop_body_step self :
  remaining_letters self ≠ "" →
  ∃ self', loop_body utils self = Ok self' ∧ decode_step utils self self'.
Proof.
  intros Hne. unfold loop_body.
  destruct (combos_loop (letter_combinations utils) self) as [self1|] eqn:Hcombo.
  { exists self1. split; [done|].
    apply combos_loop_Some in Hcombo as (l & ss & snd & ? & ? & ? & ? & ->).
    by eapply step_combination. }
  unfold single_letter.
  destruct (remaining_letters self) as [|c rest] eqn:Hletters; [done|].
  destruct (Py.isalpha c) eqn:Halpha; cbn [negb].
  2:{ eexists. split; [done|]. by eapply step_punctuation. }
  destruct (silent_e_applies utils (String c "") self) eqn:Hsilent.
  - assert (c = "e"%char) as ->.
    { unfold silent_e_applies in Hsilent.
      apply andb_true_iff in Hsilent as [_ He%bool_decide_eq_true]. by simplify_eq. }
    unfold SOUND_CATEGORIES. cbn [categories_loop].
    destruct (category_sounds_loop "e" SHORT_VOWEL (Py.get (short_vowels utils) "e")
                (process_single_letter_sound "e" [] SILENT_E self) true)
      as [self2 matched2] eqn:Hshort.
    apply category_sounds_loop_inv in Hshort
      as [(-> & -> & Hno) | (snd & Hin & Hsnd & -> & ->)]; cbn [negb].
    + eexists. split; [done|]. eapply step_silent_e; [done..|].
      intros snd Hin. rewrite <- silent_e_keeps_sounds. by apply Hno.
    + eexists. split; [done|]. rewrite silent_e_keeps_sounds in Hsnd.
      by eapply step_silent_e_and_short_vowel.
  - destruct (categories_loop (String c "") (SOUND_CATEGORIES utils) self false)
      as [self2 matched2] eqn:Hcats.
    apply categories_loop_inv in Hcats
      as [(-> & -> & Hno) | (i & d & snd & Hin & Hlisted & Hsnd & -> & ->)]; cbn [negb].
    + eexists. split; [done|]. by eapply step_undecodable.
    + eexists. split; [done|]. by eapply step_category.
Qed.

End StepFacts.

Section SegmentFacts.

Variable utils : Utils.

Lemma zip3_snoc {A B C} (l1 : list A) (l2 : list B) (l3 : list C) a b c :
  length l1 = length l2 → length l2 = length l3 →
  zip (zip (l1 ++ [a]) (l2 ++ [b])) (l3 ++ [c]) = zip (zip l1 l2) l3 ++ [(a, b, c)].
Proof.
  intros H12 H23.
  rewrite (zip_with_app pair l1 [a] l2 [b]) by done.
  rewrite zip_with_app; [done|]. rewrite length_zip_with. lia.
Qed.

Lemma zip3_app {A B C} (l1 k1 : list A) (l2 k2 : list B) (l3 k3 : list C) :
  length l1 = length l2 → length l2 = length l3 →
  zip (zip (l1 ++ k1) (l2 ++ k2)) (l3 ++ k3)
  = zip (zip l1 l2) l3 ++ zip (zip k1 k2) k3.
Proof.
  intros H12 H23.
  rewrite (zip_with_app pair l1 k1 l2 k2) by done.
  rewrite zip_with_app; [done|]. rewrite length_zip_with. lia.
Qed.

Lemma append_part_aligned self letters snd indicator :
  aligned self → aligned (append_part self letters snd indicator).
Proof. intros [H1 H2]. split; simpl; rewrite !length_app; simpl; lia. Qed.

Lemma append_part_segments self letters snd indicator :
  aligned self →
  segments (append_part self letters snd indicator)
  = segments self ++ [(letters, snd, indicator)].
Proof. intros [H1 H2]. unfold segments. simpl. by apply zip3_snoc. Qed.

Lemma process_single_letter_sound_aligned letter snd indicator self :
  aligned self → aligned (process_single_letter_sound letter snd indicator self).
Proof. intros H. by apply (append_part_aligned self letter snd indicator). Qed.

Lemma process_single_letter_sound_segments letter snd indicator self :
  aligned self →
  segments (process_single_letter_sound letter snd indicator self)
  = segments self ++ [(letter, snd, indicator)].
Proof. intros H. by apply (append_part_segments self letter snd indicator). Qed.

Lemma handle_undecodable_segments self :
  aligned self →
  segments (handle_undecodable self)
  = segments self ++ [(remaining_letters self, remaining_sounds self, UNDECODABLE)].
Proof. intros [H1 H2]. unfold segments. simpl. by apply zip3_snoc. Qed.

(** Every rule appends to the three lists together. *)
Lemma decode_step_aligned self self' :
  decode_step utils self self' → aligned self → aligned self'.
Proof.
  intros Hstep Hal.
  destruct Hstep as
    [letters sounds snd Hentry Hsnd Hstart Htake
    | c rest Hnone Hl Halpha
    | rest Hnone Hl Hsil Hno
    | rest snd Hnone Hl Hsil Hsnd Htake
    | c rest indicator sound_dict snd Hnone Hl Halpha Hsil Hcat Hsnd Htake
    | c rest Hnone Hl Halpha Hsil Hno].
  - by apply (append_part_aligned self letters snd LETTER_COMBO).
  - done.
  - by apply process_single_letter_sound_aligned.
  - by do 2 apply process_single_letter_sound_aligned.
  - by apply process_single_letter_sound_aligned.
  - destruct Hal as [Hls Hsi]. split; simpl; rewrite !length_app; simpl; lia.
Qed.

(** Every rule appends segments that a table entry, the silent E or the
    undecodable rest accounts for. *)
Lemma decode_step_justified w phonemes self self' :
  decode_step utils self self' →
  aligned self →
  Forall (justified utils w phonemes) (segments self) →
  Forall (justified utils w phonemes) (segments self').
Proof.
  intros Hstep Hal Hall.
  destruct Hstep as
    [letters sounds snd Hentry Hsnd Hstart Htake
    | c rest Hnone Hl Halpha
    | rest Hnone Hl Hsil Hno
    | rest snd Hnone Hl Hsil Hsnd Htake
    | c rest indicator sound_dict snd Hnone Hl Halpha Hsil Hcat Hsnd Htake
    | c rest Hnone Hl Halpha Hsil Hno].
  - change (segments (set_remaining (append_part self letters snd LETTER_COMBO)
                        (Py.lstrip (remaining_letters self) letters)
                        (Py.slice_from (length snd) (remaining_sounds self))))
      with (segments (append_part self letters snd LETTER_COMBO)).
    rewrite append_part_segments by done.
    apply Forall_app. split; [done|]. apply Forall_singleton.
    by eapply by_combination.
  - done.
  - rewrite process_single_letter_sound_segments by done.
    apply Forall_app. split; [done|]. apply Forall_singleton. constructor.
  - rewrite !process_single_letter_sound_segments
      by (done || by apply process_single_letter_sound_aligned).
    apply Forall_app. split; [apply Forall_app; split; [done|]|];
      apply Forall_singleton; [constructor|].
    eapply by_category; [|done]. unfold SOUND_CATEGORIES. by left.
  - rewrite process_single_letter_sound_segments by done.
    apply Forall_app. split; [done|]. apply Forall_singleton.
    by eapply by_category.
  - rewrite handle_undecodable_segments by done.
    apply Forall_app. split; [done|]. apply Forall_singleton.
    apply by_undecodable. by rewrite Hl.
Qed.

(** A property every rule keeps is kept by the loop. *)
Lemma loop_reaches_invariant (P : WordDecoder → Prop) :
  (∀ self self', P self → decode_step utils self self' → P self') →
  ∀ self final, loop_reaches utils self final → P self → P final.
Proof.
  intros Hkeep self final Hreach.
  induction Hreach as [self | self self1 self2 Hne Hbody _ IH]; [done|].
  intros HP. apply IH.
  destruct (loop_body_step utils self Hne) as (self1' & Hbody' & Hstep).
  rewrite Hbody in Hbody'. injection Hbody' as <-. by eapply Hkeep.
Qed.

(** The segments [process_affixes] returns: aligned, and each one an entry
    of the table it went through that matches the word at its end. *)
Lemma affixes_loop_justified (is_prefix : bool) (items : table) acc self acc' self' :
  items ⊆ (if is_prefix then prefixes utils else suffixes utils) →
  affixes_loop is_prefix items acc self = (acc', self') →
  length (affix_letter_parts acc) = length (affix_sound_parts acc) →
  length (affix_sound_parts acc) = length (affix_indicators acc) →
  Forall (justified utils (word self) (word_phonemes self)) (affix_segments acc) →
  length (affix_letter_parts acc') = length (affix_sound_parts acc')
  ∧ length (affix_sound_parts acc') = length (affix_indicators acc')
  ∧ Forall (justified utils (word self) (word_phonemes self)) (affix_segments acc').
Proof.
  revert acc self.
  induction items as [|[affix affix_sounds] rest IH]; intros acc self Hsub; simpl.
  - by intros [= <- <-].
  - destruct (affix_sounds_loop is_prefix affix (Py.remove_char "-" affix)
                (affix_letters_match is_prefix (word self) (Py.remove_char "-" affix))
                affix_sounds acc self) as [acc1 self1] eqn:Hinner.
    intros Hrest H1 H2 Hall.
    assert (rest ⊆ (if is_prefix then prefixes utils else suffixes utils)) as Hsub'.
    { intros x Hx. apply Hsub. by right. }
    assert (word self1 = word self ∧ word_phonemes self1 = word_phonemes self
            ∧ length (affix_letter_parts acc1) = length (affix_sound_parts acc1)
            ∧ length (affix_sound_parts acc1) = length (affix_indicators acc1)
            ∧ Forall (justified utils (word self) (word_phonemes self))
                (affix_segments acc1)) as (Hw & Hp & H1' & H2' & Hall').
    { clear Hrest IH. revert Hinner.
      assert (affix_sounds ⊆ affix_sounds) as Hss by done. revert Hss.
      generalize affix_sounds at 1 3.
      intros sounds. induction sounds as [|snd sounds IHs]; intros Hss; simpl.
      { by intros [= <- <-]. }
      destruct (affix_letters_match is_prefix (word self) (Py.remove_char "-" affix))
        eqn:Hletters; simpl.
      2:{ apply IHs. intros x Hx. apply Hss. by right. }
      destruct (affix_sounds_match is_prefix (word_phonemes self) snd) eqn:Hsounds.
      2:{ apply IHs. intros x Hx. apply Hss. by right. }
      unfold strip_affix. intros [= <- <-]. simpl.
      split; [done|]. split; [done|].
      split; [rewrite !length_app; simpl; lia|].
      split; [rewrite !length_app; simpl; lia|].
      unfold affix_segments. simpl. rewrite zip3_snoc by done.
      apply Forall_app. split; [done|]. apply Forall_singleton.
      assert ((affix, affix_sounds)
              ∈ (if is_prefix then prefixes utils else suffixes utils)) as Hentry.
      { apply Hsub. by left. }
      assert (snd ∈ affix_sounds) as Hsnd by (apply Hss; by left).
      unfold affix_letters_match, affix_sounds_match in *.
      destruct is_prefix.
      - apply bool_decide_eq_true in Hsounds. by eapply by_prefix.
      - apply bool_decide_eq_true in Hsounds. by eapply by_suffix. }
    rewrite <- Hw, <- Hp in Hall' |- *.
    apply (IH acc1 self1 Hsub' Hrest H1' H2' Hall').
Qed.

End SegmentFacts.

Section DecodedFacts.

Variable utils : Utils.

Lemma strip_affixes_justified self pre suf start :
  strip_affixes utils self = (pre, suf, start) →
  (length (affix_letter_parts pre) = length (affix_sound_parts pre)
   ∧ length (affix_sound_parts pre) = length (affix_indicators pre)
   ∧ Forall (justified utils (word self) (word_phonemes self)) (affix_segments pre))
  ∧ (length (affix_letter_parts suf) = length (affix_sound_parts suf)
     ∧ length (affix_sound_parts suf) = length (affix_indicators suf)
     ∧ Forall (justified utils (word self) (word_phonemes self)) (affix_segments suf)).
Proof.
  unfold strip_affixes.
  destruct (process_affixes (prefixes utils) true self) as [pre' self1] eqn:Hpre.
  destruct (process_affixes (suffixes utils) false self1) as [suf' start'] eqn:Hsuf.
  intros [= -> -> ->].
  pose proof (affixes_loop_spec _ _ _ _ _ _ Hpre) as ((Hw & Hp & _) & _).
  split.
  - by apply (affixes_loop_justified utils true (prefixes utils) empty_parts self pre self1).
  - rewrite <- Hw, <- Hp.
    by apply (affixes_loop_justified utils false (suffixes utils) empty_parts self1
                suf start).
Qed.

(** What the constructor returns, seen from the loop: the affix segments,
    the aligned and accounted-for state the loop starts from, and the state
    it ends in. *)
Lemma WordDecoder_init_segments fuel w phonemes d :
  simplified_cmudict utils !! Py.lower w = Some phonemes →
  WordDecoder_init utils fuel w = Some (Ok d) →
  ∃ pre suf final,
    aligned final
    ∧ Forall (justified utils (Py.lower w) phonemes) (segments final)
    ∧ (length (affix_letter_parts pre) = length (affix_sound_parts pre)
       ∧ length (affix_sound_parts pre) = length (affix_indicators pre)
       ∧ Forall (justified utils (Py.lower w) phonemes) (affix_segments pre))
    ∧ (length (affix_letter_parts suf) = length (affix_sound_parts suf)
       ∧ length (affix_sound_parts suf) = length (affix_indicators suf)
       ∧ Forall (justified utils (Py.lower w) phonemes) (affix_segments suf))
    ∧ d = splice pre suf final.
Proof.
  intros Hw (phonemes' & pre & suf & start & final & Hw' & Hstrip & Hloop & ->)
    %WordDecoder_init_ok_inv.
  rewrite Hw in Hw'. injection Hw' as <-.
  pose proof (strip_affixes_spec _ _ _ _ _ Hstrip)
    as ((_ & _ & Hlp & Hsp & Hind & _) & _).
  pose proof (strip_affixes_justified _ _ _ _ Hstrip) as [Hpre Hsuf].
  simpl in Hlp, Hsp, Hind, Hpre, Hsuf.
  apply while_loop_reaches in Hloop as [Hreach _].
  assert (aligned start ∧ Forall (justified utils (Py.lower w) phonemes) (segments start))
    as Hstart.
  { unfold aligned, segments. rewrite Hlp, Hsp, Hind. by repeat split. }
  assert (aligned final ∧ Forall (justified utils (Py.lower w) phonemes) (segments final))
    as [Hal Hall].
  { revert Hstart. apply (loop_reaches_invariant utils
      (λ self, aligned self
               ∧ Forall (justified utils (Py.lower w) phonemes) (segments self)));
      [|done].
    intros self self' [Hal Hall] Hstep. split.
    - by eapply decode_step_aligned.
    - by eapply decode_step_justified. }
  by exists pre, suf, final.
Qed.

(** X1: in every decoded word the letter parts, the sound parts and the
    indicators are lists of one length: each segment has its three
    components, the affix segments included. *)
Theorem decoded_parts_aligned (w : string) (fuel : nat) (d : WordDecoder) :
  WordDecoder_init utils fuel w = Some (Ok d) →
  length (letter_parts d) = length (sound_parts d)
  ∧ length (sound_parts d) = length (indicators d).
Proof.
  intros Hd.
  destruct (WordDecoder_init_ok_inv _ _ _ _ Hd) as (phonemes & _ & _ & _ & _ & Hw & _).
  destruct (WordDecoder_init_segments _ _ _ _ Hw Hd)
    as (pre & suf & final & [H1 H2] & _ & (Hp1 & Hp2 & _) & (Hs1 & Hs2 & _) & ->).
  simpl. rewrite !length_app. lia.
Qed.

(** X2: every segment of a decoded word is accounted for by a rule: an
    entry of the prefix or the suffix table whose letters, hyphens removed,
    begin or end the word and whose sound is listed and begins or ends the
    word's phonemes; an entry of the letter combinations with a listed
    sound; a sound listed under the one letter in the table of the
    segment's indicator; the silent E with no sound; or the undecodable
    rest, which is not empty. *)
Theorem decoded_segments_justified (w : string) (fuel : nat)
    (phonemes : list phoneme) (d : WordDecoder) :
  simplified_cmudict utils !! Py.lower w = Some phonemes →
  WordDecoder_init utils fuel w = Some (Ok d) →
  Forall (justified utils (Py.lower w) phonemes) (segments d).
Proof.
  intros Hw Hd.
  destruct (WordDecoder_init_segments _ _ _ _ Hw Hd)
    as (pre & suf & final & [H1 H2] & Hall & (Hp1 & Hp2 & Hpre) & (Hs1 & Hs2 & Hsuf) & ->).
  unfold segments. simpl.
  rewrite zip3_app by done. rewrite zip3_app by done.
  apply Forall_app. split; [done|]. apply Forall_app. by split.
Qed.

End DecodedFacts.

(** ** Affix stripping, entry by entry *)

Lemma entry_matches_same_parts is_prefix self self' entry :
  same_parts self self' →
  entry_matches is_prefix self' entry = entry_matches is_prefix self entry.
Proof. intros (Hw & Hp & _). unfold entry_matches. by rewrite Hw, Hp. Qed.

(** The inner loop strips the entry once, with the first of its sounds that
    matches, when the letters and one of the sounds match, and does nothing
    otherwise. *)
Lemma affix_sounds_loop_existsb is_prefix affix affix_letters letters_match
    sounds acc self :
  if letters_match && existsb (affix_sounds_match is_prefix (word_phonemes self)) sounds
  then ∃ snd, affix_sounds_loop is_prefix affix affix_letters letters_match sounds acc self
              = strip_affix is_prefix affix affix_letters snd acc self
  else affix_sounds_loop is_prefix affix affix_letters letters_match sounds acc self
       = (acc, self).
Proof.
  destruct letters_match; simpl.
  - induction sounds as [|snd rest IH]; simpl; [done|].
    destruct (affix_sounds_match is_prefix (word_phonemes self) snd); simpl; [|done].
    by exists snd.
  - induction sounds as [|snd rest IH]; simpl; done.
Qed.

Lemma affixes_loop_filter is_prefix items acc self :
  affix_letter_parts (affixes_loop is_prefix items acc self).1
  = affix_letter_parts acc ++ (List.filter (entry_matches is_prefix self) items).*1
  ∧ (List.filter (entry_matches is_prefix self) items = [] →
     affixes_loop is_prefix items acc self = (acc, self)).
Proof.
  revert acc self.
  induction items as [|[affix affix_sounds] rest IH]; intros acc self; simpl.
  { by rewrite app_nil_r. }
  pose proof (affix_sounds_loop_existsb is_prefix affix (Py.remove_char "-" affix)
                (affix_letters_match is_prefix (word self) (Py.remove_char "-" affix))
                affix_sounds acc self) as Hinner.
  change (affix_letters_match is_prefix (word self) (Py.remove_char "-" affix)
          && existsb (affix_sounds_match is_prefix (word_phonemes self)) affix_sounds)
    with (entry_matches is_prefix self (affix, affix_sounds)) in Hinner.
  destruct (entry_matches is_prefix self (affix, affix_sounds)).
  - destruct Hinner as [snd ->].
    destruct (strip_affix is_prefix affix (Py.remove_char "-" affix) snd acc self)
      as [acc1 self1] eqn:Hstrip.
    pose proof (strip_affix_same_parts _ _ _ _ _ _ _ _ Hstrip) as (Hsame & _ & _ & Hlp & _).
    destruct (IH acc1 self1) as [-> _]. split; [|done].
    rewrite Hlp, <- (assoc (++)). simpl. do 3 f_equal.
    apply List.filter_ext. intros entry. by apply entry_matches_same_parts.
  - rewrite Hinner. apply IH.
Qed.

(** X3: [process_affixes] returns one segment for every entry of the table
    that matches the word on letters and on phonemes, in the order of the
    table, with the key of the entry, hyphens included, as the letter part;
    when no entry matches it returns no segment and leaves the decoder as
    it was. *)
Theorem process_affixes_one_segment_per_match (affixes_dict : table)
    (is_prefix : bool) (self : WordDecoder) :
  affix_letter_parts (process_affixes affixes_dict is_prefix self).1
  = (List.filter (entry_matches is_prefix self) affixes_dict).*1
  ∧ (List.filter (entry_matches is_prefix self) affixes_dict = [] →
     process_affixes affixes_dict is_prefix self = (empty_parts, self)).
Proof.
  unfold process_affixes.
  destruct (affixes_loop_filter is_prefix affixes_dict empty_parts self) as [Hlp Hnone].
  by split.
Qed.

(** ** The letters of the word *)

Lemma append_cons (c : ascii) (s1 s2 : string) :
  String.append (String c s1) s2 = String c (String.append s1 s2).
Proof. reflexivity. Qed.

Lemma append_empty_l (s : string) : String.append "" s = s.
Proof. reflexivity. Qed.

Lemma append_empty_r (s : string) : String.append s "" = s.
Proof. induction s as [|c s IH]; [done|]. by rewrite append_cons, IH. Qed.

Lemma append_assoc (s1 s2 s3 : string) :
  String.append (String.append s1 s2) s3 = String.append s1 (String.append s2 s3).
Proof. induction s1 as [|c s1 IH]; [done|]. by rewrite !append_cons, IH. Qed.

Lemma join_snoc (parts : list string) (part : string) :
  Py.join (parts ++ [part]) = String.append (Py.join parts) part.
Proof.
  induction parts as [|p parts IH]; simpl.
  - by rewrite append_empty_r.
  - by rewrite IH, append_assoc.
Qed.

Lemma alphabetic_append (s1 s2 : string) :
  alphabetic (String.append s1 s2) = String.append (alphabetic s1) (alphabetic s2).
Proof.
  induction s1 as [|c s1 IH]; [done|].
  rewrite append_cons. simpl. destruct (Py.isalpha c); by rewrite IH.
Qed.

Section LetterFacts.

Variable utils : Utils.

Lemma get_no_empty_sound (t : table) (k : string) :
  no_empty_sound t → [] ∉ Py.get t k.
Proof.
  unfold Py.get. induction t as [|[k' sounds] t IH]; simpl.
  - intros _. apply not_elem_of_nil.
  - intros [Hhead Htail]%Forall_cons_1. case_bool_decide; [done|]. by apply IH.
Qed.

Lemma decode_step_indicators self self' :
  decode_step utils self self' →
  ∃ new, indicators self' = indicators self ++ new
         ∧ (decodable self' = decodable self ∨ decodable self' = false).
Proof.
  destruct 1.
  - exists [LETTER_COMBO]. split; [done|by left].
  - exists []. split; [by rewrite app_nil_r|by left].
  - exists [SILENT_E]. split; [done|by left].
  - exists [SILENT_E; SHORT_VOWEL]. simpl. split; [by rewrite <- (assoc (++))|by left].
  - exists [indicator]. split; [done|by left].
  - exists [UNDECODABLE]. split; [done|by right].
Qed.

Lemma silent_e_no_short_vowel self snd :
  (∀ snd, snd ∈ Py.get (short_vowels utils) "e" →
          ∃ p rest, snd = p :: rest ∧ p ∈ all_vowel_sounds utils) →
  silent_e_applies utils "e" self = true →
  snd ∈ Py.get (short_vowels utils) "e" →
  Py.slice_to (length snd) (remaining_sounds self) ≠ snd.
Proof.
  intros He Hsil Hin Htake. destruct (He snd Hin) as (p & rest & -> & Hp).
  unfold silent_e_applies in Hsil. apply andb_true_iff in Hsil as [Hsil _].
  unfold Py.slice_to in Htake.
  destruct (remaining_sounds self) as [|q rs]; simpl in Htake; [done|].
  injection Htake as -> _.
  apply negb_true_iff, bool_decide_eq_false in Hsil. done.
Qed.

Lemma decode_step_letters_kept w self self' :
  (∀ snd, snd ∈ Py.get (short_vowels utils) "e" →
          ∃ p rest, snd = p :: rest ∧ p ∈ all_vowel_sounds utils) →
  decode_step utils self self' →
  letters_kept w self → letters_kept w self'.
Proof.
  intros He Hstep Hkept Hno.
  destruct Hstep as
    [letters sounds snd Hentry Hsnd Hstart Htake
    | c rest Hnone Hl Halpha
    | rest Hnone Hl Hsil Hnomatch
    | rest snd Hnone Hl Hsil Hsnd Htake
    | c rest indicator sound_dict snd Hnone Hl Halpha Hsil Hcat Hsnd Htake
    | c rest Hnone Hl Halpha Hsil Hnomatch].
  - exfalso. apply Hno. simpl. apply elem_of_app. right. by left.
  - destruct (Hkept Hno) as [Hall Hdec]. split; [|done]. simpl.
    rewrite Hl, alphabetic_append in Hall. simpl in Hall. rewrite Halpha in Hall.
    by rewrite alphabetic_append.
  - simpl in Hno. apply not_elem_of_app in Hno as [Hno _].
    destruct (Hkept Hno) as [Hall Hdec]. simpl. rewrite Hl. simpl.
    rewrite join_snoc. split.
    + rewrite append_assoc. rewrite Hl in Hall. exact Hall.
    + intros Hd. rewrite alphabetic_append, (Hdec Hd). reflexivity.
  - exfalso. by eapply silent_e_no_short_vowel.
  - simpl in Hno. apply not_elem_of_app in Hno as [Hno _].
    destruct (Hkept Hno) as [Hall Hdec]. simpl. rewrite Hl. simpl.
    rewrite join_snoc. split.
    + rewrite append_assoc. rewrite Hl in Hall. exact Hall.
    + intros Hd. rewrite alphabetic_append, (Hdec Hd). simpl. by rewrite Halpha.
  - simpl in Hno. apply not_elem_of_app in Hno as [Hno _].
    destruct (Hkept Hno) as [Hall Hdec]. simpl.
    rewrite join_snoc, append_empty_r. split; [done|]. done.
Qed.

(** X4: when no segment of a decoded word is tagged [LETTER_COMBO], so no
    affix and no letter combination matched, the letters of the letter
    parts, in order, are the letters of the lowercase word, and when the
    word is decodable the letter parts spell exactly the word without its
    non-alphabetic characters.  The short-vowel sounds listed for "e" are
    taken to begin with a vowel sound. *)
Theorem single_letter_rules_keep_the_letters (w : string) (fuel : nat)
    (d : WordDecoder) :
  (∀ snd, snd ∈ Py.get (short_vowels utils) "e" →
          ∃ p rest, snd = p :: rest ∧ p ∈ all_vowel_sounds utils) →
  WordDecoder_init utils fuel w = Some (Ok d) →
  LETTER_COMBO ∉ indicators d →
  alphabetic (Py.join (letter_parts d)) = alphabetic (Py.lower w)
  ∧ (decodable d = true → Py.join (letter_parts d) = alphabetic (Py.lower w)).
Proof.
  intros He (phonemes & pre & suf & start & final & Hw & Hstrip & Hloop & ->)
    %WordDecoder_init_ok_inv Hno.
  simpl in Hno. apply not_elem_of_app in Hno as [Hpre Hno].
  apply not_elem_of_app in Hno as [Hno Hsuf].
  pose proof (strip_affixes_spec _ _ _ _ _ Hstrip)
    as (_ & _ & Hpi & Hsi & _).
  assert (∀ parts : affix_parts,
            affix_indicators parts
              = replicate (length (affix_sound_parts parts)) LETTER_COMBO →
            LETTER_COMBO ∉ affix_indicators parts →
            affix_sound_parts parts = []) as Hnone.
  { intros parts Hrep Hnot. destruct (affix_sound_parts parts); [done|].
    exfalso. apply Hnot. rewrite Hrep. by left. }
  apply Hnone in Hpre; [|done]. apply Hnone in Hsuf; [|done]. clear Hnone Hpi Hsi.
  revert Hstrip. unfold strip_affixes.
  destruct (process_affixes (prefixes utils) true (fresh (Py.lower w) phonemes))
    as [pre' self1] eqn:Hp.
  destruct (process_affixes (suffixes utils) false self1) as [suf' start'] eqn:Hs.
  intros [= -> -> ->].
  assert (∀ tbl is_prefix self parts self',
            process_affixes tbl is_prefix self = (parts, self') →
            affix_sound_parts parts = [] →
            affix_letter_parts parts = [] ∧ self' = self) as Hidle.
  { intros tbl ip self parts self' Hrun Hnil.
    pose proof (affixes_loop_spec _ _ _ _ _ _ Hrun)
      as (_ & _ & new & Hsp & _ & Hlen & _).
    simpl in Hsp, Hlen. subst new. rewrite Hnil in Hlen. simpl in Hlen.
    apply nil_length_inv in Hlen.
    destruct (affixes_loop_filter ip tbl empty_parts self) as [Hlp Hsame].
    unfold process_affixes in Hrun. rewrite Hrun in Hlp, Hsame. simpl in Hlp. rewrite Hlen in Hlp.
    symmetry in Hlp. apply fmap_nil_inv in Hlp.
    specialize (Hsame Hlp). by injection Hsame as _ ->. }
  destruct (Hidle _ _ _ _ _ Hp Hpre) as [Hpl ->].
  destruct (Hidle _ _ _ _ _ Hs Hsuf) as [Hsl ->].
  simpl. rewrite Hpl, Hsl, app_nil_r. simpl.
  apply while_loop_reaches in Hloop as [Hreach Hend].
  assert (letters_kept (Py.lower w) final) as Hkept.
  { apply (loop_reaches_invariant utils (letters_kept (Py.lower w))
             (λ self self' Hk Hstep, decode_step_letters_kept _ _ _ He Hstep Hk)
             _ _ Hreach).
    intros _. simpl. split; [done|]. done. }
  destruct (Hkept Hno) as [Hall Hdec]. rewrite Hend, append_empty_r in Hall.
  split; [done|]. intros Hd. by rewrite <- (Hdec Hd).
Qed.

(** X5: once the phonemes are used up, and with no empty sound in the
    tables, an iteration that finds a letter at the front makes it a silent
    E when it is "e", and otherwise gives up: the undecodable segment takes
    this letter and all that follow. *)
Theorem letters_after_the_last_phoneme (self : WordDecoder) (c : ascii)
    (rest : string) :
  no_empty_sound (letter_combinations utils) →
  no_empty_sound (short_vowels utils) →
  no_empty_sound (long_vowels utils) →
  no_empty_sound (hard_consonants utils) →
  no_empty_sound (soft_consonants utils) →
  remaining_sounds self = [] →
  remaining_letters self = String c rest →
  Py.isalpha c = true →
  loop_body utils self
  = Ok (if bool_decide (c = "e"%char)
        then process_single_letter_sound "e" [] SILENT_E self
        else handle_undecodable self).
Proof.
  intros Hcombos Hshort Hlong Hhard Hsoft Hsounds Hletters Halpha.
  assert (∀ indicator sound_dict k,
            (indicator, sound_dict) ∈ SOUND_CATEGORIES utils →
            [] ∉ Py.get sound_dict k) as Hcats.
  { intros i t k Hin. unfold SOUND_CATEGORIES in Hin.
    repeat (apply elem_of_cons in Hin as [[= -> ->]|Hin];
            [by apply get_no_empty_sound|]).
    by apply elem_of_nil in Hin. }
  assert (∀ snd : sound, Py.slice_to (length snd) (remaining_sounds self) = snd →
                         snd = []) as Hempty.
  { intros snd <-. rewrite Hsounds. apply take_nil. }
  destruct (loop_body_step utils self) as (self' & -> & Hstep);
    [by rewrite Hletters|]. f_equal.
  destruct Hstep as
    [letters sounds snd Hentry Hsnd Hstart Htake
    | c' rest' Hnone Hl Halpha'
    | rest' Hnone Hl Hsil Hnomatch
    | rest' snd Hnone Hl Hsil Hsnd Htake
    | c' rest' indicator sound_dict snd Hnone Hl Halpha' Hsil Hcat Hsnd Htake
    | c' rest' Hnone Hl Halpha' Hsil Hnomatch].
  - exfalso. apply Hempty in Htake. subst snd.
    unfold no_empty_sound in Hcombos. rewrite Forall_forall in Hcombos.
    by apply (Hcombos _ Hentry).
  - rewrite Hletters in Hl. injection Hl as <- <-. congruence.
  - rewrite Hletters in Hl. injection Hl as -> <-. done.
  - exfalso. apply Hempty in Htake. subst snd.
    by apply (get_no_empty_sound (short_vowels utils) "e").
  - exfalso. apply Hempty in Htake. subst snd. by eapply Hcats.
  - rewrite Hletters in Hl. injection Hl as <- <-.
    case_bool_decide as He; [|done]. subst c.
    unfold silent_e_applies in Hsil. by rewrite Hsounds in Hsil.
Qed.

End LetterFacts.

(** ** Letter combinations and [lstrip] *)

Lemma startswith_append (s p : string) :
  Py.startswith s p = true → ∃ rest, s = String.append p rest.
Proof.
  revert s. induction p as [|b p IH]; intros s; simpl.
  - intros _. by exists s.
  - destruct s as [|a s]; [done|].
    intros [Hab%bool_decide_eq_true [rest ->]%IH]%andb_true_iff. subst b.
    by exists rest.
Qed.

Lemma char_in_append (c : ascii) (s1 s2 : string) :
  Py.char_in c (String.append s1 s2) = Py.char_in c s1 || Py.char_in c s2.
Proof.
  induction s1 as [|d s1 IH]; [done|].
  rewrite append_cons. simpl. rewrite IH. by rewrite orb_assoc.
Qed.

Lemma lstrip_append_chars (q rest chars : string) :
  (∀ q1 c q2, q = String.append q1 (String c q2) → Py.char_in c chars = true) →
  Py.lstrip (String.append q rest) chars = Py.lstrip rest chars.
Proof.
  induction q as [|c q IH]; intros Hall; [done|].
  rewrite append_cons. simpl.
  rewrite (Hall "" c q) by done. apply IH.
  intros q1 d q2 ->. by apply (Hall (String c q1) d q2).
Qed.

Lemma lstrip_own_letters (letters rest : string) :
  Py.lstrip (String.append letters rest) letters = Py.lstrip rest letters.
Proof.
  apply lstrip_append_chars. intros q1 c q2 ->.
  rewrite char_in_append. simpl. rewrite bool_decide_eq_true_2 by done.
  by rewrite orb_true_r.
Qed.

Lemma lstrip_fixed (s chars : string) :
  Py.lstrip s chars = s ↔
  match s with
  | "" => True
  | String c _ => Py.char_in c chars = false
  end.
Proof.
  destruct s as [|c s]; simpl; [done|].
  destruct (Py.char_in c chars); [|done]. split; [|done].
  intros Heq. pose proof (lstrip_length_le s chars) as Hle.
  rewrite Heq in Hle. simpl in Hle. lia.
Qed.

(** X6: a letter-combination step records the combination as the letter
    part and removes from the front of the remaining letters the
    combination and, with it, every letter after it that occurs in the
    combination; the remaining letters are those after the match exactly
    when the first of them does not occur in the combination. *)
Theorem combination_step_letters (items : table) (self self' : WordDecoder) :
  combos_loop items self = Some self' →
  ∃ letters rest,
    letter_parts self' = letter_parts self ++ [letters]
    ∧ remaining_letters self = String.append letters rest
    ∧ remaining_letters self' = Py.lstrip rest letters
    ∧ (remaining_letters self' = rest ↔
       match rest with
       | "" => True
       | String c _ => Py.char_in c letters = false
       end).
Proof.
  intros (letters & sounds & snd & _ & _ & Hstart & _ & ->)%combos_loop_Some.
  apply startswith_append in Hstart as [rest Hrest].
  exists letters, rest. simpl. rewrite Hrest, lstrip_own_letters.
  split; [done|]. split; [done|]. split; [done|]. apply lstrip_fixed.
Qed.

(** * Further properties of the classifiers *)

Section MoreClassifierFacts.

Variable utils : Utils.
Variable helpers : Helpers.

Lemma is_vc_key_error (w : string) (allowed : option (list string))
    (include_long_vowels : bool) :
  simplified_cmudict utils !! w = None →
  is_vc utils helpers w allowed include_long_vowels = Raise (KeyError w).
Proof. intros Hw. unfold is_vc. by rewrite Hw. Qed.

Lemma or_raises (a b : result bool) (e : exn) :
  or_ a b = Raise e → a = Raise e ∨ b = Raise e.
Proof. destruct a as [[|]|]; simpl; [done|by right|by left]. Qed.

Lemma and_raises (a b : result bool) (e : exn) :
  and_ a b = Raise e → a = Raise e ∨ b = Raise e.
Proof. destruct a as [[|]|]; simpl; [by right|done|by left]. Qed.

Lemma not_call_raises {A} (name : string) (binding : option (A → bool)) (arg : A)
    (e : exn) :
  not_ (call name binding arg) = Raise e ∨ call name binding arg = Raise e →
  e = NameError name.
Proof. destruct binding; simpl; intros [?|?]; congruence. Qed.

Lemma any_call_raises (name : string) (binding : option (ascii → bool)) (s : string)
    (e : exn) :
  any_call (call name binding) s = Raise e → e = NameError name.
Proof.
  induction s as [|c s IH]; simpl; [done|].
  intros [Hcall|Hrest]%or_raises; [|by apply IH].
  apply (not_call_raises name binding c). by right.
Qed.

(** The errors a call of [is_vc] can end in *)
Lemma is_vc_raises (w : string) (allowed : option (list string))
    (include_long_vowels : bool) (e : exn) :
  is_vc utils helpers w allowed include_long_vowels = Raise e →
  e = KeyError w ∨ e = MoreThanOneVowel w
  ∨ e = NameError "is_vowel_sound" ∨ e = NameError "only_short_vowels"
  ∨ e = NameError "is_vowel".
Proof.
  unfold is_vc. destruct (simplified_cmudict utils !! w) as [sounds|].
  2:{ intros [= <-]. by left. }
  destruct (not_vowel_then_consonant helpers sounds) as [[|]|e1] eqn:H1; cbn [seq if_ return_ raise_];
    [done| |].
  2:{ intros [= <-]. right. right. left.
      unfold not_vowel_then_consonant in H1.
      apply or_raises in H1 as [?|H1]; [done|].
      apply or_raises in H1 as [H1|H1];
        eapply not_call_raises; [by left|by right]. }
  destruct (and_ (Ok (negb include_long_vowels))
              (not_ (call "only_short_vowels" (only_short_vowels helpers) w)))
    as [[|]|e2] eqn:H2; cbn [seq if_ return_ raise_]; [done| |].
  2:{ intros [= <-]. right. right. right. left.
      apply and_raises in H2 as [?|H2]; [done|].
      eapply not_call_raises. by left. }
  destruct (any_call (call "is_vowel" (is_vowel helpers)) (Py.tail w))
    as [[|]|e3] eqn:H3; cbn [seq if_ return_ raise_]; [|done|].
  - intros [= <-]. right. by left.
  - intros [= <-]. do 4 right. by eapply any_call_raises.
Qed.

(** X7: [is_vc] and [is_cvc] look the word up as it is given, without
    lowering it, and raise [KeyError] exactly when it is no key of the
    dictionary; the other errors they can end in are the one about a second
    vowel and the [NameError] of one of the three helper names; and as the
    module is written, with those names unbound, a word of the dictionary
    gets false when it does not have exactly two phonemes and the
    [NameError] of [is_vowel_sound] when it has, so no word is accepted. *)
Theorem classifier_errors (w : string) (allowed : option (list string))
    (include_long_vowels : bool) :
  (is_vc utils helpers w allowed include_long_vowels = Raise (KeyError w)
   ↔ simplified_cmudict utils !! w = None)
  ∧ (∀ e, is_vc utils helpers w allowed include_long_vowels = Raise e →
          e = KeyError w ∨ e = MoreThanOneVowel w
          ∨ e = NameError "is_vowel_sound" ∨ e = NameError "only_short_vowels"
          ∨ e = NameError "is_vowel")
  ∧ (∀ sounds, simplified_cmudict utils !! w = Some sounds →
       is_vc utils as_written w allowed include_long_vowels
       = if (length sounds =? 2)%nat then Raise (NameError "is_vowel_sound")
         else Ok false)
  ∧ is_cvc utils helpers w allowed include_long_vowels
    = is_vc utils helpers w allowed include_long_vowels.
Proof.
  split; [|split; [apply is_vc_raises|split; [|apply is_cvc_then_is_vc]]].
  - split; [|apply is_vc_key_error].
    destruct (simplified_cmudict utils !! w) as [sounds|] eqn:Hw; [|done].
    unfold is_vc. rewrite Hw.
    destruct (not_vowel_then_consonant helpers sounds) as [[|]|e1] eqn:H1;
      cbn [seq if_ return_ raise_]; [done| |].
    2:{ intros [= ->]. exfalso. unfold not_vowel_then_consonant in H1.
        apply or_raises in H1 as [?|H1]; [done|].
        apply or_raises in H1 as [H1|H1].
        - by pose proof (not_call_raises _ _ _ _ (or_introl H1)).
        - by pose proof (not_call_raises _ _ _ _ (or_intror H1)). }
    destruct (and_ (Ok (negb include_long_vowels))
                (not_ (call "only_short_vowels" (only_short_vowels helpers) w)))
      as [[|]|e2] eqn:H2; cbn [seq if_ return_ raise_]; [done| |].
    2:{ intros [= ->]. exfalso. apply and_raises in H2 as [?|H2]; [done|].
        by pose proof (not_call_raises _ _ _ _ (or_introl H2)). }
    destruct (any_call (call "is_vowel" (is_vowel helpers)) (Py.tail w))
      as [[|]|e3] eqn:H3; cbn [seq if_ return_ raise_]; [done|done|].
    intros [= ->]. by apply any_call_raises in H3.
  - intros sounds Hw. unfold is_vc, not_vowel_then_consonant. rewrite Hw.
    by destruct (length sounds =? 2)%nat.
Qed.

End MoreClassifierFacts.

(** * The [Word] class *)

Lemma index_None (x : string) (l : list string) :
  Py.index x l = None ↔ x ∉ l.
Proof.
  induction l as [|y l IH]; simpl.
  - split; [intros _; apply not_elem_of_nil|done].
  - rewrite not_elem_of_cons. case_bool_decide as Hy.
    + split; [done|]. intros [Hne _]. by subst.
    + destruct (Py.index x l); simpl.
      * split; [done|]. intros [_ Hnot]. by apply IH in Hnot.
      * split; [|done]. intros _. split; [done|]. by apply IH.
Qed.

Lemma index_Some (x : string) (l : list string) (i : nat) :
  Py.index x l = Some i ↔
  l !! i = Some x ∧ ∀ j, j < i → l !! j ≠ Some x.
Proof.
  revert i. induction l as [|y l IH]; intros i; simpl.
  - split; [done|]. by intros [? _].
  - case_bool_decide as Hy.
    + subst y. split.
      * intros [= <-]. split; [done|]. intros j Hj. lia.
      * intros [Hi Hfirst]. destruct i as [|i]; [done|].
        exfalso. by apply (Hfirst 0); [lia|].
    + destruct i as [|i].
      * split.
        -- destruct (Py.index x l); done.
        -- intros [[= ->] _]. done.
      * split.
        -- destruct (Py.index x l) as [k|]; [|done]. simpl.
           intros [= <-]. destruct (proj1 (IH k) eq_refl) as [Hk Hfirst].
           split; [done|].
           intros [|j] Hj; simpl; [by intros [= ->]|]. apply Hfirst. lia.
        -- intros [Hi Hfirst].
           assert (Py.index x l = Some i) as ->; [|done].
           apply IH. split; [done|]. intros j Hj. apply (Hfirst (S j)). lia.
Qed.

(** X10: [get_rank] returns the first position of the word, as it is
    given, in [top_n], and raises [ValueError] exactly when the word is
    not in the list. *)
Theorem get_rank_first_position (more : WordTables) (w : string) (rank : nat) :
  (get_rank more w = Done rank ↔
   top_n more !! rank = Some w ∧ ∀ j, j < rank → top_n more !! j ≠ Some w)
  ∧ (get_rank more w = Failed ValueError ↔ w ∉ top_n more).
Proof.
  unfold get_rank. split.
  - rewrite <- index_Some. destruct (Py.index w (top_n more)); split; congruence.
  - rewrite <- index_None. destruct (Py.index w (top_n more)); split; congruence.
Qed.

Lemma setitem_fresh {V} (k : string) (v : V) (d : list (string * V)) :
  k ∉ d.*1 → Py.setitem k v d = d ++ [(k, v)].
Proof.
  induction d as [|[k' v'] d IH]; simpl; [done|].
  rewrite not_elem_of_cons. intros [Hne Hnot].
  rewrite bool_decide_eq_false_2 by done. by rewrite IH.
Qed.

Section BitmapFacts.

Variable decoder : WordDecoder.
Hypothesis parts_have_sounds :
  length (letter_parts decoder) ≤ length (sound_parts decoder).

(** The inner loop fills the array from left to right with the bits of the
    entries. *)
Lemma bitmap_loop_closed (items : table) (filled : list Z) (out : list printed) :
  bitmap_loop decoder items (length filled)
    (filled ++ replicate (length items) 0%Z) out
  = (Done (filled ++ (entry_bit decoder <$> items)),
     out ++ omap (entry_line decoder) items).
Proof.
  revert filled out.
  induction items as [|[letter_part phon] rest IH]; intros filled out; simpl.
  { by rewrite !app_nil_r. }
  assert (∀ (b : Z) out',
    bitmap_loop decoder rest (S (length filled))
      (filled ++ b :: replicate (length rest) 0%Z) out'
    = (Done (filled ++ b :: (entry_bit decoder <$> rest)),
       out' ++ omap (entry_line decoder) rest)) as Hnext.
  { intros b out'. specialize (IH (filled ++ [b]) out').
    rewrite length_app, <- !(assoc (++)) in IH. simpl in IH.
    by rewrite Nat.add_1_r in IH. }
  unfold entry_bit, entry_line. simpl.
  case_bool_decide as Hin.
  - destruct (Py.index letter_part (letter_parts decoder)) as [place|] eqn:Hindex.
    2:{ by apply index_None in Hindex. }
    apply index_Some in Hindex as [Hplace _].
    apply lookup_lt_Some in Hplace.
    destruct (lookup_lt_is_Some_2 (sound_parts decoder) place) as [snd Hsnd]; [lia|].
    rewrite Hsnd. simpl.
    destruct (sound_part_listed decoder place snd phon).
    + rewrite insert_app_r_alt by lia. rewrite Nat.sub_diag. simpl.
      rewrite Hnext. by rewrite <- (assoc (++)).
    + rewrite Hnext. by rewrite <- (assoc (++)).
  - apply index_None in Hin. rewrite Hin. simpl. apply Hnext.
Qed.

Lemma bitmaps_loop_closed (sets : list (string * table))
    (bitmaps : list (string * list Z)) (out : list printed) :
  NoDup (bitmaps.*1 ++ sets.*1) →
  bitmaps_loop decoder sets bitmaps out
  = (Done (bitmaps ++ (set_bitmap decoder <$> sets)),
     out ++ concat (set_lines decoder <$> sets)).
Proof.
  revert bitmaps out.
  induction sets as [|[p_set items] rest IH]; intros bitmaps out Hnodup; simpl.
  { by rewrite !app_nil_r. }
  pose proof (bitmap_loop_closed items [] out) as Hinner. simpl in Hinner.
  rewrite Hinner. simpl in Hnodup.
  apply NoDup_app in Hnodup as (Hb & Hdisj & Hs).
  apply NoDup_cons in Hs as [Hfresh Hs].
  rewrite setitem_fresh.
  2:{ intros Hin. apply (Hdisj _ Hin). by left. }
  rewrite IH.
  - by rewrite <- !(assoc (++)).
  - rewrite fmap_app. simpl. rewrite <- (assoc (++)). simpl.
    apply NoDup_app. split; [done|]. split.
    + intros x Hx [->|Hin]%elem_of_cons.
      * apply (Hdisj _ Hx). by left.
      * apply (Hdisj _ Hx). by right.
    + by apply NoDup_cons.
Qed.

End BitmapFacts.

Lemma PHONEME_SETS_names (utils : Utils) (more : WordTables) :
  NoDup (PHONEME_SETS utils more).*1.
Proof. simpl. apply (bool_decide_unpack _). vm_compute. reflexivity. Qed.

Lemma entry_bit_0_or_1 (decoder : WordDecoder) (entry : string * list sound) :
  entry_bit decoder entry = 0%Z ∨ entry_bit decoder entry = 1%Z.
Proof.
  unfold entry_bit. destruct (Py.index entry.1 (letter_parts decoder)); [|by left].
  destruct (sound_parts decoder !! n) as [snd|]; [|by left].
  destruct (sound_part_listed decoder n snd entry.2); [by right|by left].
Qed.

Lemma set_bitmap_shape (decoder : WordDecoder) (sets : list (string * table)) :
  (set_bitmap decoder <$> sets).*1 = sets.*1
  ∧ Forall2 (λ bitmap set,
               length bitmap.2 = length set.2
               ∧ Forall (λ bit, bit = 0%Z ∨ bit = 1%Z) bitmap.2)
      (set_bitmap decoder <$> sets) sets.
Proof.
  induction sets as [|[name items] sets [IH1 IH2]]; simpl; [by split|].
  split; [by f_equal|]. constructor; [|done]. simpl.
  split; [by rewrite length_fmap|].
  apply Forall_fmap, Forall_forall. intros entry _. apply entry_bit_0_or_1.
Qed.

(** X11: for a decoder with a sound part for every letter part,
    [get_phoneme_bitmaps] raises nothing; it returns, for every table of
    [PHONEME_SETS] in order, the bits of the table's entries, 1 for an
    entry whose letters are a letter part and whose sounds hold the sound
    part at the first place the letters occur, and it prints one line for
    every entry whose letters are a letter part. *)
Theorem phoneme_bitmaps_closed_form (utils : Utils) (more : WordTables)
    (decoder : WordDecoder) :
  length (letter_parts decoder) ≤ length (sound_parts decoder) →
  get_phoneme_bitmaps utils more decoder
  = (Done (set_bitmap decoder <$> PHONEME_SETS utils more),
     concat (set_lines decoder <$> PHONEME_SETS utils more)).
Proof.
  intros Hlen. unfold get_phoneme_bitmaps.
  rewrite (bitmaps_loop_closed decoder Hlen); [done|].
  apply PHONEME_SETS_names.
Qed.

Lemma WordDecoder_init_aligned (utils : Utils) (fuel : nat) (w : string)
    (d : WordDecoder) :
  WordDecoder_init utils fuel w = Some (Ok d) → aligned d.
Proof.
  intros Hd.
  destruct (WordDecoder_init_ok_inv _ _ _ _ Hd) as (phonemes & _ & _ & _ & _ & Hw & _).
  destruct (WordDecoder_init_segments _ _ _ _ _ Hw Hd)
    as (pre & suf & final & [H1 H2] & _ & (Hp1 & Hp2 & _) & (Hs1 & Hs2 & _) & ->).
  split; simpl; rewrite !length_app; lia.
Qed.

(** X12: for every decoded word [get_phoneme_bitmaps] returns without an
    error one bitmap for each of the twelve tables of [PHONEME_SETS], under
    the table's name and in the order of the tables, as long as the table
    and made of zeros and ones. *)
Theorem decoded_word_bitmaps (utils : Utils) (more : WordTables) (fuel : nat)
    (w : string) (d : WordDecoder) :
  WordDecoder_init utils fuel w = Some (Ok d) →
  ∃ bitmaps out,
    get_phoneme_bitmaps utils more d = (Done bitmaps, out)
    ∧ length bitmaps = 12
    ∧ bitmaps.*1 = (PHONEME_SETS utils more).*1
    ∧ Forall2 (λ bitmap set,
                 length bitmap.2 = length set.2
                 ∧ Forall (λ bit, bit = 0%Z ∨ bit = 1%Z) bitmap.2)
        bitmaps (PHONEME_SETS utils more).
Proof.
  intros [Hls _]%WordDecoder_init_aligned.
  exists (set_bitmap d <$> PHONEME_SETS utils more),
         (concat (set_lines d <$> PHONEME_SETS utils more)).
  split.
  - unfold get_phoneme_bitmaps.
    rewrite (bitmaps_loop_closed d); [done | lia | apply PHONEME_SETS_names].
  - split; [done|]. apply set_bitmap_shape.
Qed.

(** ** Case, and the order of the categories *)

Lemma lower_char_idempotent (c : ascii) :
  Py.lower_char (Py.lower_char c) = Py.lower_char c.
Proof. by destruct c as [[] [] [] [] [] [] [] []]. Qed.

Lemma lower_idempotent (s : string) : Py.lower (Py.lower s) = Py.lower s.
Proof.
  induction s as [|c s IH]; simpl; [done|].
  by rewrite lower_char_idempotent, IH.
Qed.

Lemma decode_step_word (utils : Utils) (self self' : WordDecoder) :
  decode_step utils self self' →
  word self' = word self ∧ word_phonemes self' = word_phonemes self.
Proof. by destruct 1. Qed.

(** X13: the constructor does not tell the case of its argument: the
    decoder of a word is the decoder of its lowercase form.  A decoder it
    returns holds that lowercase form as its word and the dictionary's
    entry for it as its phonemes, and no letter is left to decode. *)
Theorem WordDecoder_init_case (utils : Utils) (fuel : nat) (w : string) :
  WordDecoder_init utils fuel (Py.lower w) = WordDecoder_init utils fuel w
  ∧ ∀ d, WordDecoder_init utils fuel w = Some (Ok d) →
         word d = Py.lower w
         ∧ simplified_cmudict utils !! word d = Some (word_phonemes d)
         ∧ remaining_letters d = "".
Proof.
  split.
  { unfold WordDecoder_init. cbv zeta. by rewrite lower_idempotent. }
  intros d (phonemes & pre & suf & start & final & Hw & Hstrip & Hloop & ->)
    %WordDecoder_init_ok_inv.
  pose proof (strip_affixes_spec _ _ _ _ _ Hstrip) as ((Hword & Hph & _) & _).
  simpl in Hword, Hph.
  apply while_loop_reaches in Hloop as [Hreach Hend].
  assert (word final = Py.lower w ∧ word_phonemes final = phonemes) as [Hfw Hfp].
  { apply (loop_reaches_invariant utils
             (λ self, word self = Py.lower w ∧ word_phonemes self = phonemes))
      with (self := start); [|done|done].
    intros self self' [H1 H2] [H3 H4]%decode_step_word. split; congruence. }
  simpl. rewrite Hfw, Hfp. by repeat split.
Qed.

Lemma categories_loop_first this_letter (before after : list (Indicator * table))
    (indicator : Indicator) (sound_dict : table) self :
  (∀ indicator' sound_dict' snd,
     (indicator', sound_dict') ∈ before →
     snd ∈ Py.get sound_dict' this_letter →
     Py.slice_to (length snd) (remaining_sounds self) ≠ snd) →
  (∃ snd, snd ∈ Py.get sound_dict this_letter
          ∧ Py.slice_to (length snd) (remaining_sounds self) = snd) →
  ∃ snd, snd ∈ Py.get sound_dict this_letter
    ∧ Py.slice_to (length snd) (remaining_sounds self) = snd
    ∧ categories_loop this_letter (before ++ (indicator, sound_dict) :: after) self false
      = (process_single_letter_sound this_letter snd indicator self, true).
Proof.
  intros Hbefore (snd0 & Hin0 & Hsnd0).
  induction before as [|[i d] before IH]; simpl.
  - destruct (category_sounds_loop this_letter indicator
                (Py.get sound_dict this_letter) self false)
      as [self1 matched1] eqn:Hinner.
    apply category_sounds_loop_inv in Hinner
      as [(_ & _ & Hno) | (snd & Hin & Hsnd & -> & ->)].
    + by destruct (Hno snd0 Hin0).
    + by exists snd.
  - destruct (category_sounds_loop this_letter i (Py.get d this_letter) self false)
      as [self1 matched1] eqn:Hinner.
    apply category_sounds_loop_inv in Hinner
      as [(-> & -> & _) | (snd & Hin & Hsnd & _)].
    + apply IH. intros i' d' snd Hin'. apply (Hbefore i' d'). by right.
    + exfalso. by apply (Hbefore i d snd); [left|..].
Qed.

(** X14: among the sound categories the first one, in the order short
    vowel, long vowel, hard consonant, soft consonant, that lists a sound
    matching the remaining phonemes under the letter gives the segment its
    indicator, when no letter combination matches, the letter is
    alphabetic and the silent E does not apply. *)
Theorem first_category_wins (utils : Utils) (self : WordDecoder) (c : ascii)
    (rest : string) (before after : list (Indicator * table))
    (indicator : Indicator) (sound_dict : table) :
  SOUND_CATEGORIES utils = before ++ (indicator, sound_dict) :: after →
  combos_loop (letter_combinations utils) self = None →
  remaining_letters self = String c rest →
  Py.isalpha c = true →
  silent_e_applies utils (String c "") self = false →
  (∀ indicator' sound_dict' snd,
     (indicator', sound_dict') ∈ before →
     snd ∈ Py.get sound_dict' (String c "") →
     Py.slice_to (length snd) (remaining_sounds self) ≠ snd) →
  (∃ snd, snd ∈ Py.get sound_dict (String c "")
          ∧ Py.slice_to (length snd) (remaining_sounds self) = snd) →
  ∃ snd, snd ∈ Py.get sound_dict (String c "")
    ∧ Py.slice_to (length snd) (remaining_sounds self) = snd
    ∧ loop_body utils self
      = Ok (process_single_letter_sound (String c "") snd indicator self).
Proof.
  intros Hcats Hnone Hletters Halpha Hsil Hbefore Hmatch.
  destruct (categories_loop_first (String c "") before after indicator sound_dict
              self Hbefore Hmatch) as (snd & Hin & Hsnd & Hloop).
  exists snd. split; [done|]. split; [done|].
  unfold loop_body. rewrite Hnone. unfold single_letter.
  rewrite Hletters, Halpha, Hsil. cbn [negb]. by rewrite Hcats, Hloop.
Qed.

(** ** The further properties on concrete words *)

Lemma decoded_parts_aligned_boat :
  WordDecoder_init Examples.rules 4 "boat" = Some (Ok Examples.boat_decoded)
  ∧ length (letter_parts Examples.boat_decoded)
    = length (sound_parts Examples.boat_decoded)
  ∧ length (sound_parts Examples.boat_decoded)
    = length (indicators Examples.boat_decoded).
Proof.
  assert (WordDecoder_init Examples.rules 4 "boat" = Some (Ok Examples.boat_decoded))
    as Hd by (vm_compute; reflexivity).
  split; [exact Hd|].
  exact (decoded_parts_aligned Examples.rules "boat" 4 _ Hd).
Defined.

Lemma decoded_segments_justified_unfit :
  simplified_cmudict Examples.rules !! Py.lower "unfit" = Some Examples.unfit_phonemes
  ∧ WordDecoder_init Examples.rules 5 "unfit" = Some (Ok Examples.unfit_decoded)
  ∧ Forall (justified Examples.rules (Py.lower "unfit") Examples.unfit_phonemes)
      (segments Examples.unfit_decoded).
Proof.
  assert (simplified_cmudict Examples.rules !! Py.lower "unfit"
          = Some Examples.unfit_phonemes) as Hw by (vm_compute; reflexivity).
  assert (WordDecoder_init Examples.rules 5 "unfit"
          = Some (Ok Examples.unfit_decoded)) as Hd by (vm_compute; reflexivity).
  split; [exact Hw|]. split; [exact Hd|].
  exact (decoded_segments_justified Examples.rules "unfit" 5 _ _ Hw Hd).
Defined.

Example process_affixes_internal :
  List.filter (entry_matches true (fresh "internal" ["IH"; "N"; "T"; "ER"; "N"; "AH"; "L"]))
    (prefixes Examples.rules)
  = [("in-", [["IH"; "N"]]); ("inter-", [["IH"; "N"; "T"; "ER"]])].
Proof. vm_compute. reflexivity. Qed.

Lemma single_letter_rules_keep_the_letters_wont :
  (∀ snd, snd ∈ Py.get (short_vowels Examples.rules) "e" →
          ∃ p rest, snd = p :: rest ∧ p ∈ all_vowel_sounds Examples.rules)
  ∧ WordDecoder_init Examples.rules 5 "Won't" = Some (Ok Examples.wont_decoded)
  ∧ (LETTER_COMBO ∉ indicators Examples.wont_decoded)
  ∧ Py.join (letter_parts Examples.wont_decoded) = alphabetic (Py.lower "Won't").
Proof.
  assert (∀ snd, snd ∈ Py.get (short_vowels Examples.rules) "e" →
                 ∃ p rest, snd = p :: rest ∧ p ∈ all_vowel_sounds Examples.rules)
    as He.
  { intros snd Hin. exists "EH"%string, [].
    vm_compute in Hin. apply list_elem_of_singleton in Hin.
    split; [exact Hin|]. apply (bool_decide_unpack _). vm_compute. reflexivity. }
  assert (WordDecoder_init Examples.rules 5 "Won't" = Some (Ok Examples.wont_decoded))
    as Hd by (vm_compute; reflexivity).
  assert (LETTER_COMBO ∉ indicators Examples.wont_decoded) as Hno.
  { apply (bool_decide_unpack _). vm_compute. reflexivity. }
  split; [exact He|]. split; [exact Hd|]. split; [exact Hno|].
  apply (proj2 (single_letter_rules_keep_the_letters Examples.rules "Won't" 5 _
                  He Hd Hno)).
  vm_compute. reflexivity.
Defined.

Lemma letters_after_the_last_phoneme_cake :
  remaining_sounds WordExamples.cake_at_e = []
  ∧ remaining_letters WordExamples.cake_at_e = "e"
  ∧ loop_body Examples.rules WordExamples.cake_at_e
    = Ok (process_single_letter_sound "e" [] SILENT_E WordExamples.cake_at_e).
Proof.
  split; [reflexivity|]. split; [reflexivity|].
  apply (letters_after_the_last_phoneme Examples.rules WordExamples.cake_at_e "e" "");
    try reflexivity;
    apply (bool_decide_unpack _); vm_compute; reflexivity.
Defined.

Lemma combination_step_letters_sts :
  combos_loop (letter_combinations Examples.rules) WordExamples.sts_before
  = Some WordExamples.sts_after
  ∧ ∃ letters rest,
      letter_parts WordExamples.sts_after
      = letter_parts WordExamples.sts_before ++ [letters]
      ∧ remaining_letters WordExamples.sts_before = String.append letters rest
      ∧ remaining_letters WordExamples.sts_after = Py.lstrip rest letters
      ∧ (remaining_letters WordExamples.sts_after = rest ↔
         match rest with
         | "" => True
         | String c _ => Py.char_in c letters = false
         end).
Proof.
  assert (combos_loop (letter_combinations Examples.rules) WordExamples.sts_before
          = Some WordExamples.sts_after) as Hstep by (vm_compute; reflexivity).
  split; [exact Hstep|].
  exact (combination_step_letters _ _ _ Hstep).
Defined.

Example combination_step_sts_takes_the_last_letter :
  remaining_letters WordExamples.sts_after = ""
  ∧ letter_parts WordExamples.sts_after = ["st"].
Proof. vm_compute. done. Qed.

Lemma classifier_errors_capital :
  simplified_cmudict Examples.rules !! "At" = None
  ∧ is_vc Examples.rules as_written "At" None false = Raise (KeyError "At")
  ∧ is_cvc Examples.rules as_written "At" None false = Raise (KeyError "At")
  ∧ simplified_cmudict Examples.rules !! "at" = Some ["AE"; "T"]
  ∧ is_vc Examples.rules as_written "at" None false
    = Raise (NameError "is_vowel_sound").
Proof.
  assert (simplified_cmudict Examples.rules !! "At" = None)
    as Hw by (vm_compute; reflexivity).
  assert (simplified_cmudict Examples.rules !! "at" = Some ["AE"; "T"])
    as Hat by (vm_compute; reflexivity).
  destruct (classifier_errors Examples.rules as_written "At" None false)
    as (Hkey & _ & _ & Hcvc).
  destruct (classifier_errors Examples.rules as_written "at" None false)
    as (_ & _ & Hwritten & _).
  split; [exact Hw|]. split; [exact (proj2 Hkey Hw)|].
  split; [rewrite Hcvc; exact (proj2 Hkey Hw)|].
  split; [exact Hat|]. exact (Hwritten _ Hat).
Defined.

Example get_rank_at :
  get_rank WordExamples.tables "at" = Done 1
  ∧ get_rank WordExamples.tables "At" = Failed ValueError.
Proof. vm_compute. done. Qed.

Lemma phoneme_bitmaps_closed_form_cake :
  length (letter_parts WordExamples.cake_decoded)
  ≤ length (sound_parts WordExamples.cake_decoded)
  ∧ get_phoneme_bitmaps Examples.rules WordExamples.tables WordExamples.cake_decoded
    = (Done (set_bitmap WordExamples.cake_decoded
               <$> PHONEME_SETS Examples.rules WordExamples.tables),
       concat (set_lines WordExamples.cake_decoded
                 <$> PHONEME_SETS Examples.rules WordExamples.tables)).
Proof.
  assert (length (letter_parts WordExamples.cake_decoded)
          ≤ length (sound_parts WordExamples.cake_decoded)) as Hlen
    by (vm_compute; lia).
  split; [exact Hlen|].
  exact (phoneme_bitmaps_closed_form Examples.rules WordExamples.tables _ Hlen).
Defined.

(** The bitmaps of "cake": "c" and "k" are hard consonants and "a" is a
    long vowel; the silent "e" is no short and no long vowel. *)
Example cake_bitmaps :
  (get_phoneme_bitmaps Examples.rules WordExamples.tables WordExamples.cake_decoded).1
  = Done [ ("hard_consonants", [0; 1; 0; 1; 0; 0; 0; 0; 0; 0]%Z);
           ("soft_consonants", [0]%Z);
           ("short_vowels", [0; 0; 0; 0; 0]%Z);
           ("long_vowels", [1; 0; 0; 0; 0]%Z);
           ("secondary_vowel_pronunciations", [0]%Z);
           ("vowel_teams", [0]%Z);
           ("digraphs", [0]%Z);
           ("double_letters", []);
           ("prefix_digraphs", []);
           ("prefix_blends", [0]%Z);
           ("suffix_blends", [0]%Z);
           ("common_endings", [0]%Z) ].
Proof. vm_compute. reflexivity. Qed.

Lemma decoded_word_bitmaps_cake :
  WordDecoder_init Examples.rules 4 "cake" = Some (Ok WordExamples.cake_decoded)
  ∧ ∃ bitmaps out,
      get_phoneme_bitmaps Examples.rules WordExamples.tables WordExamples.cake_decoded
      = (Done bitmaps, out)
      ∧ length bitmaps = 12
      ∧ bitmaps.*1 = (PHONEME_SETS Examples.rules WordExamples.tables).*1
      ∧ Forall2 (λ bitmap set,
                   length bitmap.2 = length set.2
                   ∧ Forall (λ bit, bit = 0%Z ∨ bit = 1%Z) bitmap.2)
          bitmaps (PHONEME_SETS Examples.rules WordExamples.tables).
Proof.
  assert (WordDecoder_init Examples.rules 4 "cake"
          = Some (Ok WordExamples.cake_decoded)) as Hd by (vm_compute; reflexivity).
  split; [exact Hd|].
  exact (decoded_word_bitmaps Examples.rules WordExamples.tables 4 "cake" _ Hd).
Defined.

Lemma WordDecoder_init_case_cake :
  WordDecoder_init Examples.rules 4 "CAKE" = Some (Ok WordExamples.cake_decoded)
  ∧ WordDecoder_init Examples.rules 4 (Py.lower "CAKE")
    = WordDecoder_init Examples.rules 4 "CAKE"
  ∧ word WordExamples.cake_decoded = Py.lower "CAKE"
  ∧ simplified_cmudict Examples.rules !! word WordExamples.cake_decoded
    = Some (word_phonemes WordExamples.cake_decoded)
  ∧ remaining_letters WordExamples.cake_decoded = "".
Proof.
  assert (WordDecoder_init Examples.rules 4 "CAKE"
          = Some (Ok WordExamples.cake_decoded)) as Hd by (vm_compute; reflexivity).
  destruct (WordDecoder_init_case Examples.rules 4 "CAKE") as [Hcase Hword].
  split; [exact Hd|]. split; [exact Hcase|]. exact (Hword _ Hd).
Defined.

Lemma first_category_wins_cake :
  ∃ snd, snd ∈ Py.get (long_vowels Examples.rules) "a"
    ∧ Py.slice_to (length snd) ["EY"; "K"] = snd
    ∧ loop_body Examples.rules (set_remaining WordExamples.cake_at_e "ake" ["EY"; "K"])
      = Ok (process_single_letter_sound "a" snd LONG_VOWEL
              (set_remaining WordExamples.cake_at_e "ake" ["EY"; "K"])).
Proof.
  apply (first_category_wins Examples.rules
           (set_remaining WordExamples.cake_at_e "ake" ["EY"; "K"]) "a" "ke"
           [(SHORT_VOWEL, short_vowels Examples.rules)]
           [(HARD_CONSONANT, hard_consonants Examples.rules);
            (SOFT_CONSONANT, soft_consonants Examples.rules)]
           LONG_VOWEL (long_vowels Examples.rules)); try reflexivity.
  - intros i d snd Hin Hsnd. apply list_elem_of_singleton in Hin.
    injection Hin as -> ->. vm_compute in Hsnd.
    apply list_elem_of_singleton in Hsnd. subst snd. vm_compute. discriminate.
  - exists ["EY"%string]. split; [|reflexivity].
    apply (bool_decide_unpack _). vm_compute. reflexivity.
Defined.

Lemma process_affixes_one_segment_per_match_cake :
  List.filter (entry_matches true (fresh "cake" ["K"; "EY"; "K"]))
    (prefixes Examples.rules) = []
  ∧ process_affixes (prefixes Examples.rules) true (fresh "cake" ["K"; "EY"; "K"])
    = (empty_parts, fresh "cake" ["K"; "EY"; "K"]).
Proof.
  assert (List.filter (entry_matches true (fresh "cake" ["K"; "EY"; "K"]))
            (prefixes Examples.rules) = []) as Hnone by (vm_compute; reflexivity).
  split; [exact Hnone|].
  exact (proj2 (process_affixes_one_segment_per_match (prefixes Examples.rules) true
                  (fresh "cake" ["K"; "EY"; "K"])) Hnone).
Defined.

Lemma get_rank_first_position_at :
  top_n WordExamples.tables !! 1 = Some "at"
  ∧ (∀ j, j < 1 → top_n WordExamples.tables !! j ≠ Some "at")
  ∧ get_rank WordExamples.tables "at" = Done 1.
Proof.
  assert (top_n WordExamples.tables !! 1 = Some "at") as Hat by reflexivity.
  assert (∀ j, j < 1 → top_n WordExamples.tables !! j ≠ Some "at") as Hfirst.
  { intros j Hj. assert (j = 0) as -> by lia. vm_compute. discriminate. }
  split; [exact Hat|]. split; [exact Hfirst|].
  exact (proj2 (proj1 (get_rank_first_position WordExamples.tables "at" 1))
           (conj Hat Hfirst)).
Defined.
